(** * The token validation gate of the ProGear Sales MCP server

    A shallow embedding of the Express middleware [validateToken] and of the
    module-level set-up it depends on ([OKTA_ISSUER], [OKTA_AUDIENCE], [jwks]),
    followed by the properties of the gate.

    The middleware is effectful: it reads [process.env] and the module
    variable [jwks], writes to the console, calls the jose library (which
    talks to the network and keeps its own key cache) and finally either
    calls [next()] or sends a response.  The embedding threads all of that
    through one explicit process state.

    The development then covers what surrounds the gate: the tool routes it
    protects, the system log panel, the token exchange card, the NextAuth
    callbacks and the configuration probe. *)

From Stdlib Require Import String Ascii List ZArith Bool.
From Stdlib Require QArith.
From stdpp Require Import base option gmap strings pretty.
Import ListNotations.

Local Open Scope string_scope.
Local Open Scope list_scope.

(** ** JavaScript string primitives used by the middleware *)

Module JS.

(** [s.startsWith(searchString)] *)
Fixpoint startsWith (s searchString : string) {struct searchString} : bool :=
  match searchString with
  | EmptyString => true
  | String c p =>
      match s with
      | EmptyString => false
      | String d s' => if Ascii.eqb d c then startsWith s' p else false
      end
  end.

(** [s.split(sep)] for a one-character separator: every occurrence of the
    separator ends a piece, so [n] separators give [n + 1] pieces. *)
Fixpoint split (s : string) (sep : ascii) : list string :=
  match s with
  | EmptyString => [EmptyString]
  | String c s' =>
      if Ascii.eqb c sep then EmptyString :: split s' sep
      else match split s' sep with
           | [] => [String c EmptyString]
           | piece :: pieces => String c piece :: pieces
           end
  end.

(** [xs[i]]: [None] stands for [undefined]. *)
Definition index {A : Type} (xs : list A) (i : nat) : option A := nth_error xs i.

(** [v || ''] for [v : string | undefined]. *)
Definition or_empty (v : option string) : string :=
  match v with
  | None => ""
  | Some s => s
  end.

(** Truthiness of a string. *)
Definition truthy (s : string) : bool := negb (String.eqb s "").

(** Does the character occur in the string? *)
Fixpoint occurs (c : ascii) (s : string) : bool :=
  match s with
  | EmptyString => false
  | String d s' => Ascii.eqb d c || occurs c s'
  end.

End JS.

(** ** Data of the jose library, as far as the middleware sees it *)

(** [JWTPayload]: the registered claims plus any further ones. *)
Record JWTPayload := {
  iss : option string;
  sub : option string;
  aud : list string;
  exp : option Z;
  claims : list (string * string)
}.

(** What [jwtVerify] can throw; the middleware catches all of it alike. *)
Inductive JOSEError :=
| JWSSignatureVerificationFailed
| JWTClaimValidationFailed (claim : string)
| JWTExpired
| JWKSFetchFailed
| JWSInvalid.

Inductive JWTVerifyResult :=
| Verified (payload : JWTPayload)
| Thrown (error : JOSEError).

Record JWTVerifyOptions := { issuer : string; audience : string }.

Record URL := { href : string }.

(** The resolver returned by [createRemoteJWKSet(url)]. *)
Inductive JWKS := createRemoteJWKSet (url : URL).

(** The parts of the platform that are not code of this repository:
    [new URL(s)] ([None] when it throws), and jose's [jwtVerify], whose
    verdict depends on the outside world (remote keys, clock, the resolver's
    cache) and may change it. *)
Class Jose := {
  World : Type;
  new_URL : string -> option URL;
  jwtVerify : string -> JWKS -> JWTVerifyOptions -> World -> JWTVerifyResult * World
}.

(** ** Express requests, responses and what a middleware ends with *)

Record Request := {
  authorization : option string;      (* req.headers.authorization *)
  url : string;                       (* req.url *)
  user : option JWTPayload            (* (req as any).user *)
}.

Definition set_user (req : Request) (payload : JWTPayload) : Request :=
  {| authorization := authorization req; url := url req; user := Some payload |}.

Definition set_authorization (req : Request) (h : option string) : Request :=
  {| authorization := h; url := url req; user := user req |}.

(** [res.status(code).json(body)] *)
Record Response := { status : Z; json : list (string * string) }.

Inductive Outcome :=
| Next (req : Request)        (* next() was called; the handler sees [req] *)
| Sent (res : Response)       (* a response was sent, next() was not called *)
| Uncaught (what : string).   (* the async function rejected *)

(** ** Console output *)

Inductive LogArg :=
| LStr (s : string)
| LUndefined
| LErr (e : JOSEError).

Inductive LogLine :=
| console_log (args : list LogArg)
| console_error (args : list LogArg).

(** ** Module scope and process state *)

Record ModuleScope := {
  OKTA_ISSUER : string;
  OKTA_AUDIENCE : string;
  jwks : option JWKS
}.

Record Process `{Jose} := {
  env : gmap string string;           (* process.env *)
  scope : ModuleScope;
  console : list LogLine;             (* oldest line first *)
  world : World
}.

(** Line 17: [process.env.MCP_SERVER_PORT || 3001], as a template literal
    prints it. *)
Definition PORT (e : gmap string string) : string :=
  if JS.truthy (JS.or_empty (e !! "MCP_SERVER_PORT"))
  then JS.or_empty (e !! "MCP_SERVER_PORT") else "3001".

(** The glyph before " ProGear" on line 216, as the nine bytes the source
    file has there. *)
Definition banner_glyph : string :=
  String "239" (String "163" (String "191" (String "195" (String "188"
    (String "195" (String "168" (String "195" (String "132" EmptyString)))))))).

(** Lines 215-219: what the [listen] callback prints once the server accepts
    connections. *)
Definition listening (e : gmap string string) : list LogLine :=
  [ console_log [LStr (banner_glyph +:+ " ProGear Sales MCP Server running on port "
                       +:+ PORT e)];
    console_log [LStr ("   Health: http://localhost:" +:+ PORT e +:+ "/health")];
    console_log [LStr ("   Tools:  http://localhost:" +:+ PORT e +:+ "/mcp/tools/...")] ].

Section Middleware.
Context `{Jose}.

(** Lines 18-26: evaluation of the module body.  [None]: [new URL] threw and
    the module failed to load. *)
Definition load_module (e : gmap string string) : option ModuleScope :=
  let issuer := JS.or_empty (e !! "OKTA_ISSUER") in
  let audience := JS.or_empty (e !! "OKTA_CUSTOM_AUTH_SERVER_AUDIENCE") in
  if JS.truthy issuer then
    match new_URL (issuer +:+ "/v1/keys") with
    | Some u => Some {| OKTA_ISSUER := issuer; OKTA_AUDIENCE := audience;
                        jwks := Some (createRemoteJWKSet u) |}
    | None => None
    end
  else Some {| OKTA_ISSUER := issuer; OKTA_AUDIENCE := audience; jwks := None |}.

(** The process once the module body has run and the server is listening,
    before any request: the [listen] callback has printed its three lines,
    and nothing has touched the outside world yet ([createRemoteJWKSet] only
    builds the resolver).  Every start-up that gets to serve requests is of
    this form; whether [app.listen] itself succeeds (a port that is invalid
    or in use) is not decided here. *)
Definition boot (e : gmap string string) (w : World) : option Process :=
  match load_module e with
  | Some m => Some {| env := e; scope := m; console := listening e; world := w |}
  | None => None
  end.

(** *** A state monad over the process *)

Definition M (A : Type) : Type := Process -> A * Process.

Definition ret {A} (a : A) : M A := fun p => (a, p).

Definition bind {A B} (c : M A) (k : A -> M B) : M B :=
  fun p => let (a, p') := c p in k a p'.

Definition getenv (name : string) : M (option string) :=
  fun p => (env p !! name, p).

Definition get_scope : M ModuleScope := fun p => (scope p, p).

Definition write_console (l : LogLine) : M unit :=
  fun p => (tt, {| env := env p; scope := scope p;
                   console := console p ++ [l]; world := world p |}).

Definition await_jwtVerify (token : string) (ks : JWKS) (o : JWTVerifyOptions)
  : M JWTVerifyResult :=
  fun p => let (r, w') := jwtVerify token ks o (world p) in
           (r, {| env := env p; scope := scope p;
                  console := console p; world := w' |}).

End Middleware.

Notation "'let*' x := c 'in' k" := (bind c (fun x => k))
  (at level 10, x name, c at level 100, k at level 200).
Notation "'do' c 'then' k" := (bind c (fun _ => k))
  (at level 10, c at level 100, k at level 200).

Section Gate.
Context `{Jose}.

Definition missing_header : Response :=
  {| status := 401; json := [("error", "Missing authorization header")] |}.

Definition invalid_token : Response :=
  {| status := 401; json := [("error", "Invalid token")] |}.

(** How [console.log] shows [payload.sub]. *)
Definition log_sub (payload : JWTPayload) : LogArg :=
  match sub payload with
  | Some s => LStr s
  | None => LUndefined
  end.

(** Lines 54-59: the branch taken when there is no usable header. *)
Definition without_bearer (req : Request) : M Outcome :=
  let* node_env := getenv "NODE_ENV" in
  if bool_decide (node_env = Some "development") then
    do write_console (console_log [LStr "[MCP] Demo mode - skipping token validation"]) then
    ret (Next req)
  else
    ret (Sent missing_header).

(** Lines 62-87: the header is a non-empty string starting with "Bearer ".
    The [try] block also encloses the call of [next()], which hands over to
    Express and returns. *)
Definition with_bearer (req : Request) (authHeader : string) : M Outcome :=
  match JS.index (JS.split authHeader " ") 1 with
  | None => ret (Uncaught "TypeError: Cannot read properties of undefined")
  | Some token =>
      if JS.startsWith token "demo-token" then
        do write_console (console_log [LStr "[MCP] Demo token accepted"]) then
        ret (Next req)
      else
        let* m := get_scope in
        match jwks m with
        | None =>
            do write_console (console_log [LStr "[MCP] No JWKS configured, accepting token"]) then
            ret (Next req)
        | Some ks =>
            let* r := await_jwtVerify token ks
                        {| issuer := OKTA_ISSUER m; audience := OKTA_AUDIENCE m |} in
            match r with
            | Verified payload =>
                do write_console (console_log [LStr "[MCP] Token validated:"; log_sub payload]) then
                ret (Next (set_user req payload))
            | Thrown error =>
                do write_console (console_error [LStr "[MCP] Token validation failed:"; LErr error]) then
                ret (Sent invalid_token)
            end
        end
  end.

(** Lines 50-88. *)
Definition validateToken (req : Request) : M Outcome :=
  match authorization req with
  | None => without_bearer req
  | Some authHeader =>
      if negb (JS.truthy authHeader) || negb (JS.startsWith authHeader "Bearer ")
      then without_bearer req
      else with_bearer req authHeader
  end.

(** The token the gate extracts from a request, when it gets that far
    (line 62). *)
Definition bearer_token (req : Request) : option string :=
  match authorization req with
  | None => None
  | Some authHeader =>
      if negb (JS.truthy authHeader) || negb (JS.startsWith authHeader "Bearer ")
      then None
      else JS.index (JS.split authHeader " ") 1
  end.

(** The options every verification is run with (lines 78-79). *)
Definition verify_options (m : ModuleScope) : JWTVerifyOptions :=
  {| issuer := OKTA_ISSUER m; audience := OKTA_AUDIENCE m |}.

(** What the caller can tell: admitted, or rejected with which response. *)
Inductive Decision :=
| Admit
| Reject (res : Response)
| Hang.

Definition decision (o : Outcome) : Decision :=
  match o with
  | Next _ => Admit
  | Sent r => Reject r
  | Uncaught _ => Hang
  end.

Definition accepts (r : JWTVerifyResult) : bool :=
  match r with
  | Verified _ => true
  | Thrown _ => false
  end.

(** The process after one more console line. *)
Definition logging (l : LogLine) (p : Process) : Process :=
  snd (write_console l p).

(** What jose says about the token of a request; [None] when the gate does
    not ask (no bearer token, a demo token, or no resolver). *)
Definition verdict (req : Request) (p : Process) : option bool :=
  match bearer_token req, jwks (scope p) with
  | Some token, Some ks =>
      if JS.startsWith token "demo-token" then None
      else Some (accepts (fst (jwtVerify token ks (verify_options (scope p)) (world p))))
  | _, _ => None
  end.

(** Requests passing through the gate one after the other. *)
Fixpoint validate_all (reqs : list Request) : M (list Outcome) :=
  match reqs with
  | [] => ret []
  | req :: reqs' =>
      let* o := validateToken req in
      let* os := validate_all reqs' in
      ret (o :: os)
  end.

End Gate.

(** ** What the verdict of jose rests on

    [jwtVerify] is not code of this repository, so the gate is modelled over
    any [Jose].  Properties that speak about the token itself (its signature,
    its audience, its expiry) or about the key set need to say what the
    library's verdict depends on.  [JoseChecks] names the checks as jose
    documents them, and [lawful] states that [jwtVerify] resolves with the
    payload exactly when all of them pass. *)

(** The [issuer] and [audience] options: each is compared only when it is a
    non-empty string. *)
Definition claims_match (o : JWTVerifyOptions) (payload : JWTPayload) : bool :=
  (negb (JS.truthy (issuer o)) || bool_decide (iss payload = Some (issuer o)))
  && (negb (JS.truthy (audience o)) || bool_decide (audience o ∈ aud payload)).

Record JoseChecks `{Jose} := {
  (* the token is a compact JWS whose header and payload jose can read under
     these options; its payload *)
  well_formed : string -> JWTVerifyOptions -> option JWTPayload;
  (* the resolver can get hold of the key set (from its cache or the network) *)
  keys_available : JWKS -> World -> bool;
  (* the signature verifies under a key of that set *)
  signature_valid : string -> JWKS -> World -> bool;
  (* the time-based claims hold at the current time *)
  time_valid : JWTPayload -> World -> bool;
  (* the current time, in seconds *)
  clock : World -> Z
}.

Section Checks.
Context `{Jose} (c : JoseChecks).

(** The payload jose resolves with, if every check passes. *)
Definition would_accept (token : string) (ks : JWKS) (o : JWTVerifyOptions) (w : World)
  : option JWTPayload :=
  match well_formed c token o with
  | Some payload =>
      if keys_available c ks w && signature_valid c token ks w
         && claims_match o payload && time_valid c payload w
      then Some payload else None
  | None => None
  end.

Definition lawful : Prop :=
  (forall payload w e,
     exp payload = Some e -> (e <= clock c w)%Z -> time_valid c payload w = false)
  /\ (forall token ks o w payload,
        fst (jwtVerify token ks o w) = Verified payload
        <-> would_accept token ks o w = Some payload).

(** What the outside world contributes to the verdict on a request's token:
    whether the keys can be had, whether the signature verifies under them,
    and whether the token is within its validity period.  [None] when the
    gate does not ask jose. *)
Definition world_facts (req : Request) (p : Process) : option (bool * bool * option bool) :=
  match bearer_token req, jwks (scope p) with
  | Some token, Some ks =>
      if JS.startsWith token "demo-token" then None
      else Some (keys_available c ks (world p),
                 signature_valid c token ks (world p),
                 (fun payload => time_valid c payload (world p))
                   <$> well_formed c token (verify_options (scope p)))
  | _, _ => None
  end.

End Checks.


(** ** A stub identity provider

    A small, fully computable stand-in for jose and the network, used to run
    the gate on concrete requests.  It knows one honestly signed token and one
    forged copy of it; its world counts how often the key set was fetched. *)

Module Stub.

Definition issuer_url : string := "https://idp.example/oauth2/default".
Definition api : string := "api://progear".

Definition alice : JWTPayload :=
  {| iss := Some issuer_url; sub := Some "alice"; aud := [api];
     exp := None; claims := [("scp", "sales:read")] |}.

Definition signed : string := "eyJhbGciOiJSUzI1NiJ9.eyJzdWIiOiJhbGljZSJ9.c2lnbmVk".
Definition forged : string := "eyJhbGciOiJSUzI1NiJ9.eyJzdWIiOiJhbGljZSJ9.Zm9yZ2Vk".

(** The resolver fetches the keys the first time it is asked. *)
Definition fetch (fetches : nat) : nat :=
  match fetches with
  | O => 1
  | S _ => fetches
  end.

Definition check_claims (o : JWTVerifyOptions) (payload : JWTPayload) : JWTVerifyResult :=
  if JS.truthy (issuer o) && negb (bool_decide (iss payload = Some (issuer o)))
  then Thrown (JWTClaimValidationFailed "iss")
  else if JS.truthy (audience o) && negb (bool_decide (audience o ∈ aud payload))
  then Thrown (JWTClaimValidationFailed "aud")
  else Verified payload.

Definition verify (token : string) (ks : JWKS) (o : JWTVerifyOptions) (fetches : nat)
  : JWTVerifyResult * nat :=
  if String.eqb token signed then (check_claims o alice, fetch fetches)
  else if String.eqb token forged then (Thrown JWSSignatureVerificationFailed, fetch fetches)
  else (Thrown JWSInvalid, fetches).

Definition parse_url (s : string) : option URL :=
  if JS.startsWith s "https://" || JS.startsWith s "http://"
  then Some {| href := s |} else None.

Definition idp : Jose :=
  {| World := nat; new_URL := parse_url; jwtVerify := verify |}.

(** Three deployments. *)
Definition configured : gmap string string :=
  <["OKTA_ISSUER" := issuer_url]>
    (<["OKTA_CUSTOM_AUTH_SERVER_AUDIENCE" := api]> (<["NODE_ENV" := "production"]> ∅)).

Definition other_audience : gmap string string :=
  <["OKTA_ISSUER" := issuer_url]>
    (<["OKTA_CUSTOM_AUTH_SERVER_AUDIENCE" := "api://inventory"]> ∅).

Definition unconfigured : gmap string string :=
  <["OKTA_CUSTOM_AUTH_SERVER_AUDIENCE" := "api://inventory"]> ∅.

Definition issuer_only : gmap string string :=
  <["OKTA_ISSUER" := issuer_url]> ∅.

Definition development : gmap string string :=
  <["NODE_ENV" := "development"]> configured.

Definition request (h : option string) : Request :=
  {| authorization := h; url := "/mcp/tools/get_orders"; user := None |}.

Definition bearer (token : string) : Request := request (Some ("Bearer " +:+ token)).

(** The process state of a deployment that loaded and listens, with a cold
    key cache. *)
Definition started (e : gmap string string) : @Process idp :=
  match @load_module idp e with
  | Some m => @Build_Process idp e m (listening e) 0%nat
  | None =>
      @Build_Process idp e
        {| OKTA_ISSUER := ""; OKTA_AUDIENCE := ""; jwks := None |} (listening e) 0%nat
  end.

End Stub.

(** ** A stub identity provider with a clock

    A second stand-in for jose, built from the checks above: its world has a
    clock and a key endpoint that can be down, and one of its tokens
    expires. *)

Module Clocked.

Record world := { now : Z; reachable : bool; fetched : bool }.

Definition expiry : Z := 1700003600.

Definition bob : JWTPayload :=
  {| iss := Some Stub.issuer_url; sub := Some "bob"; aud := [Stub.api];
     exp := Some expiry; claims := [] |}.

Definition short_lived : string := "eyJhbGciOiJSUzI1NiJ9.eyJzdWIiOiJib2IifQ.c2hvcnQ".

(** The tokens the provider knows: is the signature genuine, and the payload. *)
Definition lookup (token : string) : option (bool * JWTPayload) :=
  if String.eqb token Stub.signed then Some (true, Stub.alice)
  else if String.eqb token Stub.forged then Some (false, Stub.alice)
  else if String.eqb token short_lived then Some (true, bob)
  else None.

Definition unexpired (payload : JWTPayload) (w : world) : bool :=
  match exp payload with
  | Some e => Z.ltb (now w) e
  | None => true
  end.

Definition claim_error (o : JWTVerifyOptions) (payload : JWTPayload) : JOSEError :=
  if negb (JS.truthy (issuer o)) || bool_decide (iss payload = Some (issuer o))
  then JWTClaimValidationFailed "aud" else JWTClaimValidationFailed "iss".

Definition verify (token : string) (ks : JWKS) (o : JWTVerifyOptions) (w : world)
  : JWTVerifyResult * world :=
  match lookup token with
  | None => (Thrown JWSInvalid, w)
  | Some (genuine, payload) =>
      if negb (reachable w) then (Thrown JWKSFetchFailed, w)
      else
        let w' := {| now := now w; reachable := reachable w; fetched := true |} in
        if negb genuine then (Thrown JWSSignatureVerificationFailed, w')
        else if negb (claims_match o payload) then (Thrown (claim_error o payload), w')
        else if negb (unexpired payload w) then (Thrown JWTExpired, w')
        else (Verified payload, w')
  end.

Definition idp : Jose :=
  {| World := world; new_URL := Stub.parse_url; jwtVerify := verify |}.

Definition checks : @JoseChecks idp :=
  @Build_JoseChecks idp
    (fun token _ => snd <$> lookup token)
    (fun _ w => reachable w)
    (fun token _ _ => match lookup token with Some (genuine, _) => genuine | None => false end)
    unexpired
    now.

(** The provider's keys are up, nothing fetched yet, at the given time. *)
Definition at_time (t : Z) : world := {| now := t; reachable := true; fetched := false |}.

Definition keys_down (t : Z) : world := {| now := t; reachable := false; fetched := false |}.

Definition started (e : gmap string string) (w : world) : @Process idp :=
  match @load_module idp e with
  | Some m => @Build_Process idp e m (listening e) w
  | None =>
      @Build_Process idp e
        {| OKTA_ISSUER := ""; OKTA_AUDIENCE := ""; jwks := None |} (listening e) w
  end.

End Clocked.

(** * The tool endpoints behind the gate

    The mock tables and the handlers of the MCP tool routes (lines 28-47 and
    92-212 of the server).  Strings are sequences of code units below 256, as
    for header values.  The [create_quote] handler computes with
    floating-point prices and with the clock and is left out. *)

Module JSText.

(** One code unit of [s.toLowerCase()]: A-Z and the capital letters of the
    Latin-1 block (U+00C0-U+00DE without U+00D7) move up by 32. *)
Definition lower_unit (c : ascii) : ascii :=
  let n := nat_of_ascii c in
  if (Nat.leb 65 n && Nat.leb n 90)
     || (Nat.leb 192 n && Nat.leb n 222 && negb (Nat.eqb n 215))
  then ascii_of_nat (n + 32) else c.

(** [s.toLowerCase()] *)
Fixpoint toLowerCase (s : string) : string :=
  match s with
  | EmptyString => EmptyString
  | String c s' => String (lower_unit c) (toLowerCase s')
  end.

(** [!!v] for [v : string | undefined]. *)
Definition present (v : option string) : bool := JS.truthy (JS.or_empty v).

End JSText.

Module Product.
Record t := {
  id : string;
  name : string;
  category : string;
  price : QArith_base.Q;
  stock : Z
}.
End Product.

Module Order.
Record t := {
  id : string;
  customer : string;
  items : list string;
  total : QArith_base.Q;
  status : string
}.
End Order.

Module Customer.
Record t := {
  id : string;
  name : string;
  tier : string;
  totalOrders : Z;
  revenue : Z
}.
End Customer.

Module Tools.
Import QArith.

(** Lines 29-35. *)
Definition products : list Product.t :=
  [ {| Product.id := "PROD-001"; Product.name := "Pro Basketball";
       Product.category := "Basketball"; Product.price := 29.99%Q; Product.stock := 150%Z |};
    {| Product.id := "PROD-002"; Product.name := "Elite Running Shoes";
       Product.category := "Footwear"; Product.price := 129.99%Q; Product.stock := 75%Z |};
    {| Product.id := "PROD-003"; Product.name := "Training Gloves";
       Product.category := "Accessories"; Product.price := 24.99%Q; Product.stock := 200%Z |};
    {| Product.id := "PROD-004"; Product.name := "Yoga Mat Pro";
       Product.category := "Fitness"; Product.price := 49.99%Q; Product.stock := 100%Z |};
    {| Product.id := "PROD-005"; Product.name := "Tennis Racket Elite";
       Product.category := "Tennis"; Product.price := 199.99%Q; Product.stock := 30%Z |} ].

(** Lines 37-41. *)
Definition orders : list Order.t :=
  [ {| Order.id := "ORD-001"; Order.customer := "Acme Sports";
       Order.items := ["PROD-001"; "PROD-003"]; Order.total := 54.98%Q;
       Order.status := "shipped" |};
    {| Order.id := "ORD-002"; Order.customer := "City Gym";
       Order.items := ["PROD-004"]; Order.total := 499.90%Q;
       Order.status := "pending" |};
    {| Order.id := "ORD-003"; Order.customer := "Pro Athletes Inc";
       Order.items := ["PROD-002"; "PROD-005"]; Order.total := 329.98%Q;
       Order.status := "processing" |} ].

(** Lines 43-47. *)
Definition customers : list Customer.t :=
  [ {| Customer.id := "CUST-001"; Customer.name := "Acme Sports";
       Customer.tier := "Gold"; Customer.totalOrders := 45%Z; Customer.revenue := 12500%Z |};
    {| Customer.id := "CUST-002"; Customer.name := "City Gym";
       Customer.tier := "Silver"; Customer.totalOrders := 23%Z; Customer.revenue := 8700%Z |};
    {| Customer.id := "CUST-003"; Customer.name := "Pro Athletes Inc";
       Customer.tier := "Platinum"; Customer.totalOrders := 120%Z; Customer.revenue := 45000%Z |} ].

Record VolumeDiscount := { minQuantity : Z; discount : Z }.

(** What a handler sends: [res.json(...)] with status 200, or
    [res.status(404).json({ error })]. *)
Inductive Reply :=
| list_products_result (result : list Product.t) (count : nat)
| check_stock_result (productId name : string) (stock : Z) (available : bool)
| get_orders_result (result : list Order.t) (count : nat)
| get_customer_result (result : Customer.t)
| get_price_result (productId name : string) (basePrice : Q) (currency : string)
    (volumeDiscounts : list VolumeDiscount)
| not_found (error : string).

Definition http_status (r : Reply) : Z :=
  match r with
  | not_found _ => 404%Z
  | _ => 200%Z
  end.

(** Lines 98-111; [category] is [req.query.category]. *)
Definition list_products (category : option string) : Reply :=
  let result :=
    match category with
    | Some c =>
        if JS.truthy c then
          filter (fun p => String.eqb (JSText.toLowerCase (Product.category p))
                                      (JSText.toLowerCase c)) products
        else products
    | None => products
    end in
  list_products_result result (length result).

(** Lines 114-130; [productId] is [req.params.productId]. *)
Definition check_stock (productId : string) : Reply :=
  match List.find (fun p => String.eqb (Product.id p) productId) products with
  | None => not_found "Product not found"
  | Some product =>
      check_stock_result (Product.id product) (Product.name product)
        (Product.stock product) (Z.ltb 0 (Product.stock product))
  end.

(** Lines 133-146; [status] is [req.query.status]. *)
Definition get_orders (status : option string) : Reply :=
  let result :=
    match status with
    | Some s =>
        if JS.truthy s then filter (fun o => String.eqb (Order.status o) s) orders
        else orders
    | None => orders
    end in
  get_orders_result result (length result).

(** Lines 177-188; [customerId] is [req.params.customerId]. *)
Definition get_customer (customerId : string) : Reply :=
  match List.find (fun c => String.eqb (Customer.id c) customerId) customers with
  | None => not_found "Customer not found"
  | Some customer => get_customer_result customer
  end.

(** Lines 191-212. *)
Definition get_price (productId : string) : Reply :=
  match List.find (fun p => String.eqb (Product.id p) productId) products with
  | None => not_found "Product not found"
  | Some product =>
      get_price_result (Product.id product) (Product.name product)
        (Product.price product) "USD"
        [ {| minQuantity := 10; discount := 5 |};
          {| minQuantity := 50; discount := 10 |};
          {| minQuantity := 100; discount := 15 |} ]
  end.

End Tools.

(** * The Okta system log panel

    The state of the [OktaSystemLog] component (lines 268-272 of its file) and
    its [fetchLogs] (lines 274-301).  One call of [fetchLogs] updates the
    state in two synchronous stretches, before and after its awaits; React
    applies the updates of a stretch together and renders the state it
    leaves. *)

Module OktaSystemLog.

Record Outcome := { result : string; reason : option string }.

Record Actor := {
  actor_id : string;
  actor_type : string;
  actor_name : string;
  alternate_id : option string
}.

Record OnBehalfOf := { user_id : string; user_email : string; user_name : string }.

Record IdJag := { jag_scope : option string; subject : option string }.

Record Details := {
  auth_server : option string;
  requested_scopes : option string;
  granted_scopes : option string;
  grant_type : option string
}.

(** [OktaLog]; the fields the component reads through [?.] are optional. *)
Record OktaLog := {
  timestamp : string;
  event_type : string;
  display_message : string;
  outcome : option Outcome;
  actor : option Actor;
  user_on_behalf_of : option OnBehalfOf;
  id_jag : option IdJag;
  details : option Details;
  severity : string
}.

(** [OktaLogsResponse], the fields [fetchLogs] reads. *)
Record OktaLogsResponse := {
  logs_field : option (list OktaLog);
  error_field : option string
}.

Record State := {
  logs : list OktaLog;
  loading : bool;
  error : option string;
  lastRefresh : option Z
}.

(** The [useState] initial values. *)
Definition initial : State :=
  {| logs := []; loading := true; error := None; lastRefresh := None |}.

(** What a [catch] can receive. *)
Inductive Caught :=
| an_Error (message : string)     (* [err instanceof Error] *)
| another_value.

(** How the awaits of one [fetchLogs] call turn out. *)
Inductive Fetched :=
| fetch_rejected (err : Caught)
| responded (status : Z) (body : Caught + OktaLogsResponse).

(** [response.ok] *)
Definition ok (status : Z) : bool := Z.leb 200 status && Z.leb status 299.

(** First stretch: [setLoading(true); setError(null)]. *)
Definition fetchLogs_begin (st : State) : State :=
  {| logs := logs st; loading := true; error := None; lastRefresh := lastRefresh st |}.

(** The [catch] and [finally] blocks. *)
Definition fetchLogs_catch (err : Caught) (st : State) : State :=
  {| logs := [];
     loading := false;
     error := Some match err with
                   | an_Error message => message
                   | another_value => "Failed to fetch logs"
                   end;
     lastRefresh := lastRefresh st |}.

(** Second stretch, run at time [now] on the state the first one left. *)
Definition fetchLogs_end (f : Fetched) (now : Z) (st : State) : State :=
  match f with
  | fetch_rejected err => fetchLogs_catch err st
  | responded status body =>
      if negb (ok status) then
        fetchLogs_catch (an_Error ("HTTP error: " +:+ pretty status)) st
      else
        match body with
        | inl err => fetchLogs_catch err st
        | inr data =>
            if JSText.present (error_field data) then
              {| logs := []; loading := false; error := error_field data;
                 lastRefresh := Some now |}
            else
              {| logs := match logs_field data with Some l => l | None => [] end;
                 loading := false; error := error st; lastRefresh := Some now |}
        end
  end.

Definition fetchLogs (f : Fetched) (now : Z) (st : State) : State :=
  fetchLogs_end f now (fetchLogs_begin st).

(** The states the component renders: the initial one, and those left by
    the two stretches of a [fetchLogs] call. *)
Inductive rendered : State -> Prop :=
| rendered_initial : rendered initial
| rendered_begin st : rendered st -> rendered (fetchLogs_begin st)
| rendered_end st f now : rendered st -> rendered (fetchLogs f now st).

(** The four conditional blocks of the JSX (lines 339, 350, 358, 367). *)
Definition shows_error (st : State) : bool := JSText.present (error st).

Definition shows_loading (st : State) : bool :=
  loading st && Nat.eqb (length (logs st)) 0.

Definition shows_no_logs (st : State) : bool :=
  negb (loading st) && negb (JSText.present (error st)) && Nat.eqb (length (logs st)) 0.

Definition shows_logs (st : State) : bool := Nat.ltb 0 (length (logs st)).

Definition panes (st : State) : list bool :=
  [shows_error st; shows_loading st; shows_no_logs st; shows_logs st].

End OktaSystemLog.

(** * The token exchange card *)

Module TokenExchangeCard.

Record TokenExchange := {
  agent : string;
  agent_name : string;
  color : string;
  success : bool;
  access_denied : bool;
  status : string;
  scopes : list string;
  requested_scopes : option (list string);
  error : option string;
  demo_mode : bool
}.

(** Lines 23-24. *)
Definition granted (exchanges : list TokenExchange) : list TokenExchange :=
  filter (fun e => success e && negb (access_denied e)) exchanges.

Definition denied (exchanges : list TokenExchange) : list TokenExchange :=
  filter (fun e => access_denied e) exchanges.

(** The badge of a row: "Granted" when true, "Denied" otherwise. *)
Definition granted_badge (e : TokenExchange) : bool :=
  success e && negb (access_denied e).

(** The "Blocked by Okta governance policy" line of a row. *)
Definition shows_policy_block (e : TokenExchange) : bool := access_denied e.

(** The summary: the "Granted" number, and the "Denied" number when it is
    shown at all. *)
Definition summary (exchanges : list TokenExchange) : nat * option nat :=
  (length (granted exchanges),
   if Nat.ltb 0 (length (denied exchanges)) then Some (length (denied exchanges))
   else None).

End TokenExchangeCard.

(** * The NextAuth callbacks (lib/auth.ts) *)

Module Auth.

Record Account := {
  access_token : option string;
  id_token : option string;
  provider : string
}.

Record Profile := {
  profile_sub : option string;
  profile_name : option string;
  profile_email : option string;
  picture : option string
}.

(** The NextAuth JWT: the fields the callbacks touch, and the rest. *)
Record JWT := {
  sub : option string;
  accessToken : option string;
  idToken : option string;
  token_provider : option string;
  other : list (string * string)
}.

Record User := {
  name : option string;
  email : option string;
  image : option string;
  id : option string
}.

Record Session := {
  session_user : option User;
  expires : string;
  session_accessToken : option string;
  session_idToken : option string
}.

(** Lines 33-43. *)
Definition jwt (token : JWT) (account : option Account) (profile : option Profile) : JWT :=
  let token1 :=
    match account with
    | Some a => {| sub := sub token; accessToken := access_token a;
                   idToken := id_token a; token_provider := Some (provider a);
                   other := other token |}
    | None => token
    end in
  match profile with
  | Some p => {| sub := profile_sub p; accessToken := accessToken token1;
                 idToken := idToken token1; token_provider := token_provider token1;
                 other := other token1 |}
  | None => token1
  end.

(** Lines 44-52. *)
Definition session (s : Session) (token : JWT) : Session :=
  {| session_user :=
       Some match session_user s with
            | Some u => {| name := name u; email := email u; image := image u;
                           id := sub token |}
            | None => {| name := None; email := None; image := None; id := sub token |}
            end;
     expires := expires s;
     session_accessToken := accessToken token;
     session_idToken := idToken token |}.

(** The callback on [n] later requests, which come without account and
    profile. *)
Fixpoint later_requests (n : nat) (token : JWT) : JWT :=
  match n with
  | O => token
  | S n' => later_requests n' (jwt token None None)
  end.

End Auth.

(** * The configuration probe route

    The [GET] handler that reports which settings are present. *)

Module Debug.

Record Report := {
  hasClientId : bool;
  clientIdLength : nat;
  hasClientSecret : bool;
  clientSecretLength : nat;
  hasIssuer : bool;
  issuer : string;
  hasDomain : bool;
  domain : string;
  hasNextAuthSecret : bool;
  hasNextAuthUrl : bool;
  nextAuthUrl : string;
  hasApiUrl : bool;
  apiUrl : string
}.

(** [v?.length || 0] *)
Definition length_or_0 (v : option string) : nat :=
  match v with
  | Some s => String.length s
  | None => 0
  end.

(** [v || fallback] *)
Definition or_else (v : option string) (fallback : string) : string :=
  if JSText.present v then JS.or_empty v else fallback.

Definition GET (e : gmap string string) : Report :=
  {| hasClientId := JSText.present (e !! "NEXT_PUBLIC_OKTA_CLIENT_ID");
     clientIdLength := length_or_0 (e !! "NEXT_PUBLIC_OKTA_CLIENT_ID");
     hasClientSecret := JSText.present (e !! "OKTA_CLIENT_SECRET");
     clientSecretLength := length_or_0 (e !! "OKTA_CLIENT_SECRET");
     hasIssuer := JSText.present (e !! "NEXT_PUBLIC_OKTA_ISSUER");
     issuer := or_else (e !! "NEXT_PUBLIC_OKTA_ISSUER") "NOT SET";
     hasDomain := JSText.present (e !! "NEXT_PUBLIC_OKTA_DOMAIN");
     domain := or_else (e !! "NEXT_PUBLIC_OKTA_DOMAIN") "NOT SET";
     hasNextAuthSecret := JSText.present (e !! "NEXTAUTH_SECRET");
     hasNextAuthUrl := JSText.present (e !! "NEXTAUTH_URL");
     nextAuthUrl := or_else (e !! "NEXTAUTH_URL") "NOT SET";
     hasApiUrl := JSText.present (e !! "NEXT_PUBLIC_API_URL");
     apiUrl := or_else (e !! "NEXT_PUBLIC_API_URL") "NOT SET (will use localhost:8000)" |}.

End Debug.

(** * Properties *)

(** ** Facts about the string primitives *)

Module JSFacts.
Import JS.

Lemma startsWith_app (p r : string) : startsWith (p +:+ r) p = true.
Proof.
  induction p as [|c p IH]; simpl; [reflexivity|].
  now rewrite Ascii.eqb_refl.
Qed.

Lemma startsWith_inv (p s : string) :
  startsWith s p = true -> exists r, s = p +:+ r.
Proof.
  revert s; induction p as [|c p IH]; intros s Hs; simpl in *.
  - now exists s.
  - destruct s as [|d s]; [discriminate|].
    destruct (Ascii.eqb d c) eqn:E; [|discriminate].
    apply Ascii.eqb_eq in E; subst d.
    destruct (IH _ Hs) as [r ->]. now exists r.
Qed.

Lemma startsWith_truthy (p s : string) :
  p <> "" -> startsWith s p = true -> truthy s = true.
Proof.
  intros Hp Hs. destruct p; [congruence|]. now destruct s.
Qed.

Lemma split_cons (s : string) (sep : ascii) :
  exists piece pieces, split s sep = piece :: pieces.
Proof.
  induction s as [|c s (w & ws & IH)]; simpl; [now eauto|].
  destruct (Ascii.eqb c sep); [now eauto|].
  rewrite IH. now eauto.
Qed.

(** A piece without separator, followed by a separator, is split off. *)
Lemma split_app_sep (a b : string) (sep : ascii) :
  occurs sep a = false ->
  split (a +:+ String sep b) sep = a :: split b sep.
Proof.
  induction a as [|c a IH]; simpl; intros Ha.
  - now rewrite Ascii.eqb_refl.
  - apply orb_false_elim in Ha as [Hc Ha].
    rewrite Hc, (IH Ha). reflexivity.
Qed.

(** The first piece of a string keeps every separator-free prefix. *)
Lemma split_head_startsWith (p r : string) (sep : ascii) :
  occurs sep p = false ->
  exists piece pieces,
    split (p +:+ r) sep = piece :: pieces /\ startsWith piece p = true.
Proof.
  induction p as [|c p IH]; simpl; intros Hp.
  - destruct (split_cons r sep) as (w & ws & E). now exists w, ws.
  - apply orb_false_elim in Hp as [Hc Hp].
    destruct (IH Hp) as (w & ws & E & Hw).
    rewrite Hc, E. exists (String c w), ws. split; [reflexivity|].
    simpl. now rewrite Ascii.eqb_refl.
Qed.

(** [("Bearer " + t).split(' ')[1]] is the first piece of [t]. *)
Lemma index_split_Bearer (t : string) :
  index (split ("Bearer " +:+ t) " ") 1 = nth_error (split t " ") 0.
Proof.
  change ("Bearer " +:+ t) with ("Bearer" +:+ String " " t).
  now rewrite split_app_sep.
Qed.

Lemma index_split_defined (h : string) :
  startsWith h "Bearer " = true ->
  exists token, index (split h " ") 1 = Some token.
Proof.
  intros Hh. apply startsWith_inv in Hh as [t ->].
  rewrite index_split_Bearer.
  destruct (split_cons t " ") as (w & ws & ->). now exists w.
Qed.

Lemma index_split_demo (t : string) :
  startsWith t "demo-token" = true ->
  exists token, index (split ("Bearer " +:+ t) " ") 1 = Some token
                /\ startsWith token "demo-token" = true.
Proof.
  intros Ht. apply startsWith_inv in Ht as [r ->].
  rewrite index_split_Bearer.
  destruct (split_head_startsWith "demo-token" r " " eq_refl) as (w & ws & -> & Hw).
  now exists w.
Qed.

End JSFacts.

(** ** The branches of the gate *)

Ltac frame_done :=
  simpl; repeat split;
  first [ exists []; symmetry; apply app_nil_r | eexists; reflexivity ].

Section GateFacts.
Context `{Jose}.
Implicit Types (req : Request) (p : Process) (h token : string).

Lemma validateToken_no_header req p :
  authorization req = None -> validateToken req p = without_bearer req p.
Proof. unfold validateToken. now intros ->. Qed.

Lemma validateToken_other_scheme req h p :
  authorization req = Some h -> JS.startsWith h "Bearer " = false ->
  validateToken req p = without_bearer req p.
Proof.
  unfold validateToken. intros -> ->. now rewrite orb_true_r.
Qed.

Lemma validateToken_bearer req h p :
  authorization req = Some h -> JS.startsWith h "Bearer " = true ->
  validateToken req p = with_bearer req h p.
Proof.
  unfold validateToken. intros -> Hh.
  rewrite (JSFacts.startsWith_truthy "Bearer " h), Hh; [reflexivity|discriminate|assumption].
Qed.

Lemma bearer_token_inv req token :
  bearer_token req = Some token ->
  exists h, authorization req = Some h /\ JS.startsWith h "Bearer " = true
            /\ JS.index (JS.split h " ") 1 = Some token.
Proof.
  unfold bearer_token. destruct (authorization req) as [h|]; [|discriminate].
  destruct (JS.startsWith h "Bearer ") eqn:Hh.
  - destruct (negb (JS.truthy h)); simpl; [discriminate|]. now exists h.
  - rewrite orb_true_r. discriminate.
Qed.

Lemma bearer_token_Bearer req t :
  authorization req = Some ("Bearer " +:+ t) ->
  bearer_token req = nth_error (JS.split t " ") 0.
Proof.
  unfold bearer_token. intros ->.
  change (JS.truthy ("Bearer " +:+ t)) with true.
  rewrite JSFacts.startsWith_app. simpl negb. simpl orb.
  apply JSFacts.index_split_Bearer.
Qed.

Lemma without_bearer_development req p :
  env p !! "NODE_ENV" = Some "development" ->
  without_bearer req p
  = (Next req,
     logging (console_log [LStr "[MCP] Demo mode - skipping token validation"]) p).
Proof.
  intros E. unfold without_bearer, bind, getenv. rewrite E.
  now rewrite bool_decide_eq_true_2.
Qed.

Lemma without_bearer_closed req p :
  env p !! "NODE_ENV" <> Some "development" ->
  without_bearer req p = (Sent missing_header, p).
Proof.
  intros E. unfold without_bearer, bind, getenv.
  now rewrite bool_decide_eq_false_2.
Qed.

Lemma with_bearer_demo req h token p :
  JS.index (JS.split h " ") 1 = Some token ->
  JS.startsWith token "demo-token" = true ->
  with_bearer req h p
  = (Next req, logging (console_log [LStr "[MCP] Demo token accepted"]) p).
Proof. unfold with_bearer. now intros -> ->. Qed.

Lemma with_bearer_no_jwks req h token p :
  JS.index (JS.split h " ") 1 = Some token ->
  JS.startsWith token "demo-token" = false ->
  jwks (scope p) = None ->
  with_bearer req h p
  = (Next req,
     logging (console_log [LStr "[MCP] No JWKS configured, accepting token"]) p).
Proof.
  unfold with_bearer, bind, get_scope. now intros -> -> ->.
Qed.

Lemma with_bearer_verify req h token ks p :
  JS.index (JS.split h " ") 1 = Some token ->
  JS.startsWith token "demo-token" = false ->
  jwks (scope p) = Some ks ->
  with_bearer req h p
  = let (r, w') := jwtVerify token ks (verify_options (scope p)) (world p) in
    let p' := {| env := env p; scope := scope p; console := console p; world := w' |} in
    match r with
    | Verified payload =>
        (Next (set_user req payload),
         logging (console_log [LStr "[MCP] Token validated:"; log_sub payload]) p')
    | Thrown error =>
        (Sent invalid_token,
         logging (console_error [LStr "[MCP] Token validation failed:"; LErr error]) p')
    end.
Proof.
  unfold with_bearer, bind, get_scope, await_jwtVerify, verify_options.
  intros -> -> ->.
  destruct (jwtVerify _ _ _ _) as [[payload|error] w']; reflexivity.
Qed.

(** The extraction on line 62 never yields [undefined]. *)
Lemma validateToken_never_uncaught req p what :
  fst (validateToken req p) <> Uncaught what.
Proof.
  unfold validateToken.
  assert (Hw : fst (without_bearer req p) <> Uncaught what).
  { unfold without_bearer, bind, getenv. now case_bool_decide. }
  destruct (authorization req) as [h|]; [|exact Hw].
  destruct (JS.startsWith h "Bearer ") eqn:Hh.
  2:{ now rewrite orb_true_r. }
  rewrite (JSFacts.startsWith_truthy "Bearer " h) by (discriminate || assumption).
  simpl.
  destruct (JSFacts.index_split_defined h Hh) as [token Ht].
  destruct (JS.startsWith token "demo-token") eqn:Hd.
  - now rewrite (with_bearer_demo _ _ token).
  - destruct (jwks (scope p)) as [ks|] eqn:Hk.
    + rewrite (with_bearer_verify _ _ token ks) by assumption.
      now destruct (jwtVerify _ _ _ _) as [[?|?] ?].
    + now rewrite (with_bearer_no_jwks _ _ token).
Qed.

(** Whatever the request, the module scope and the environment stay as
    they were and the console only grows. *)
Lemma validateToken_frame req p :
  scope (snd (validateToken req p)) = scope p
  /\ env (snd (validateToken req p)) = env p
  /\ exists lines, console (snd (validateToken req p)) = console p ++ lines.
Proof.
  assert (Hw : scope (snd (without_bearer req p)) = scope p
               /\ env (snd (without_bearer req p)) = env p
               /\ exists lines, console (snd (without_bearer req p)) = console p ++ lines).
  { unfold without_bearer, bind, getenv. case_bool_decide; frame_done. }
  unfold validateToken.
  destruct (authorization req) as [h|]; [|exact Hw].
  destruct (negb (JS.truthy h) || negb (JS.startsWith h "Bearer ")); [exact Hw|].
  unfold with_bearer, bind, get_scope, await_jwtVerify.
  destruct (JS.index _ _) as [token|]; [|frame_done].
  destruct (JS.startsWith token "demo-token"); [frame_done|].
  destruct (jwks (scope p)) as [ks|]; [|frame_done].
  destruct (jwtVerify _ _ _ _) as [[payload|error] w']; frame_done.
Qed.

End GateFacts.

(** ** The gate when no issuer is configured *)

Lemma load_module_no_issuer `{Jose} (e : gmap string string) (m : ModuleScope) :
  JS.or_empty (e !! "OKTA_ISSUER") = "" ->
  load_module e = Some m ->
  jwks m = None /\ OKTA_ISSUER m = "".
Proof.
  unfold load_module. intros ->. simpl. now intros [= <-].
Qed.

(** C1.  When no issuer is configured ([OKTA_ISSUER] unset or empty), loading
    the module leaves [jwks] null, and the gate then calls [next()] for every
    request whose header starts with "Bearer ", whatever follows the scheme:
    the request is handed on as it came, jose is never consulted and no
    response is sent. *)
Theorem no_issuer_admits_every_bearer `{Jose}
    (e : gmap string string) (p : Process) (req : Request) (h : string) :
  JS.or_empty (e !! "OKTA_ISSUER") = "" ->
  load_module e = Some (scope p) ->
  authorization req = Some h ->
  JS.startsWith h "Bearer " = true ->
  jwks (scope p) = None
  /\ fst (validateToken req p) = Next req
  /\ world (snd (validateToken req p)) = world p.
Proof.
  intros Hiss Hload Hauth Hh.
  destruct (load_module_no_issuer e _ Hiss Hload) as [Hk _].
  split; [exact Hk|].
  rewrite (validateToken_bearer req h p Hauth Hh).
  destruct (JSFacts.index_split_defined h Hh) as [token Ht].
  destruct (JS.startsWith token "demo-token") eqn:Hd.
  - now rewrite (with_bearer_demo req h token p Ht Hd).
  - now rewrite (with_bearer_no_jwks req h token p Ht Hd Hk).
Qed.

Lemma no_issuer_admits_every_bearer_witness :
  fst (@validateToken Stub.idp (Stub.bearer "not-even-a-jwt")
         (Stub.started Stub.unconfigured))
  = Next (Stub.bearer "not-even-a-jwt").
Proof.
  apply (@no_issuer_admits_every_bearer Stub.idp Stub.unconfigured
           (Stub.started Stub.unconfigured) (Stub.bearer "not-even-a-jwt")
           "Bearer not-even-a-jwt"); vm_compute; reflexivity.
Defined.

(** ** The demo bypass *)

(** C2.  A request whose header is "Bearer " followed by a token starting with
    "demo-token" is admitted in every deployment and every process state: the
    gate logs the bypass and calls [next()] with the request as it came (no
    claims attached), without consulting jose, so the signature plays no
    part.  The code has no switch for the bypass; it is always on. *)
Theorem demo_token_admitted `{Jose} (p : Process) (req : Request) (t : string) :
  authorization req = Some ("Bearer " +:+ t) ->
  JS.startsWith t "demo-token" = true ->
  validateToken req p
  = (Next req, logging (console_log [LStr "[MCP] Demo token accepted"]) p).
Proof.
  intros Hauth Ht.
  rewrite (validateToken_bearer req _ p Hauth (JSFacts.startsWith_app "Bearer " t)).
  destruct (JSFacts.index_split_demo t Ht) as (token & Hi & Hd).
  exact (with_bearer_demo req _ token p Hi Hd).
Qed.

Lemma demo_token_admitted_witness :
  fst (@validateToken Stub.idp (Stub.bearer "demo-token-alice x.y.z")
         (Stub.started Stub.configured))
  = Next (Stub.bearer "demo-token-alice x.y.z").
Proof.
  rewrite (@demo_token_admitted Stub.idp (Stub.started Stub.configured)
             (Stub.bearer "demo-token-alice x.y.z") "demo-token-alice x.y.z");
    vm_compute; reflexivity.
Defined.

(** ** Verification failures *)

Lemma validateToken_verify `{Jose} (p : Process) (req : Request) (token : string) (ks : JWKS) :
  jwks (scope p) = Some ks ->
  bearer_token req = Some token ->
  JS.startsWith token "demo-token" = false ->
  validateToken req p
  = let (r, w') := jwtVerify token ks (verify_options (scope p)) (world p) in
    let p' := {| env := env p; scope := scope p; console := console p; world := w' |} in
    match r with
    | Verified payload =>
        (Next (set_user req payload),
         logging (console_log [LStr "[MCP] Token validated:"; log_sub payload]) p')
    | Thrown error =>
        (Sent invalid_token,
         logging (console_error [LStr "[MCP] Token validation failed:"; LErr error]) p')
    end.
Proof.
  intros Hk Ht Hd.
  destruct (bearer_token_inv req token Ht) as (h & Hauth & Hh & Hi).
  rewrite (validateToken_bearer req h p Hauth Hh).
  exact (with_bearer_verify req h token ks p Hi Hd Hk).
Qed.

Lemma validateToken_thrown `{Jose} (p : Process) (req : Request) (token : string)
    (ks : JWKS) (error : JOSEError) :
  jwks (scope p) = Some ks ->
  bearer_token req = Some token ->
  JS.startsWith token "demo-token" = false ->
  fst (jwtVerify token ks (verify_options (scope p)) (world p)) = Thrown error ->
  fst (validateToken req p) = Sent invalid_token.
Proof.
  intros Hk Ht Hd Hv.
  rewrite (validateToken_verify p req token ks Hk Ht Hd).
  destruct (jwtVerify _ _ _ _) as [r w']. simpl in Hv. now subst r.
Qed.

(** *** Verdicts under the checks of jose *)

Lemma lawful_Verified `{Jose} (c : JoseChecks) (token : string) (ks : JWKS)
    (o : JWTVerifyOptions) (w : World) (payload : JWTPayload) :
  lawful c ->
  fst (jwtVerify token ks o w) = Verified payload ->
  well_formed c token o = Some payload
  /\ keys_available c ks w = true
  /\ signature_valid c token ks w = true
  /\ claims_match o payload = true
  /\ time_valid c payload w = true.
Proof.
  intros [_ L] Hv. apply L in Hv. unfold would_accept in Hv.
  destruct (well_formed c token o) as [pl|]; [|discriminate].
  destruct (keys_available c ks w), (signature_valid c token ks w),
    (claims_match o pl) eqn:Hc, (time_valid c pl w) eqn:Ht;
    simpl in Hv; try discriminate.
  injection Hv as <-. now rewrite Hc, Ht.
Qed.

Lemma lawful_accepts `{Jose} (c : JoseChecks) (token : string) (ks : JWKS)
    (o : JWTVerifyOptions) (w : World) :
  lawful c ->
  accepts (fst (jwtVerify token ks o w))
  = match would_accept c token ks o w with Some _ => true | None => false end.
Proof.
  intros [_ L].
  destruct (fst (jwtVerify token ks o w)) as [payload|error] eqn:Hv; simpl.
  - apply L in Hv. now rewrite Hv.
  - destruct (would_accept c token ks o w) as [payload|] eqn:Hw; [|reflexivity].
    apply L in Hw. congruence.
Qed.

Lemma claims_match_audience (o : JWTVerifyOptions) (payload : JWTPayload) :
  claims_match o payload = true -> audience o <> "" -> audience o ∈ aud payload.
Proof.
  unfold claims_match, JS.truthy. intros Hc Ha.
  apply andb_true_iff in Hc as [_ Hc].
  destruct (String.eqb_spec (audience o) "") as [E|_]; [contradiction|].
  simpl in Hc. now apply bool_decide_eq_true in Hc.
Qed.

Lemma claims_match_intro (o : JWTVerifyOptions) (payload : JWTPayload) :
  iss payload = Some (issuer o) -> audience o ∈ aud payload ->
  claims_match o payload = true.
Proof.
  intros Hi Ha. unfold claims_match.
  rewrite (bool_decide_eq_true_2 _ Hi), (bool_decide_eq_true_2 _ Ha).
  now rewrite !orb_true_r.
Qed.

Lemma clocked_lawful : lawful Clocked.checks.
Proof.
  split.
  - intros payload w e He Hle. simpl. unfold Clocked.unexpired. rewrite He.
    apply Z.ltb_ge, Hle.
  - intros token ks o w payload. unfold would_accept. simpl. unfold Clocked.verify.
    destruct (Clocked.lookup token) as [[genuine pl]|]; simpl; [|now split].
    destruct (Clocked.reachable w); simpl; [|now split].
    destruct genuine; simpl; [|now split].
    destruct (claims_match o pl); simpl; [|now split].
    destruct (Clocked.unexpired pl w); simpl; [|now split].
    split; now intros [= <-].
Qed.

(** C3, as the code has it.  When a key-set resolver exists (an issuer is
    configured) and the token does not start with "demo-token", a request
    whose token's signature does not verify under the resolver's keys is
    answered with status 401 and [next()] is not called; and so is a request
    whose token carries an audience list without the configured audience,
    provided an audience is configured at all (jose compares the audience
    only when the option is a non-empty string). *)
Theorem badly_signed_or_wrong_audience_rejected `{Jose} (c : JoseChecks)
    (p : Process) (req : Request) (token : string) (ks : JWKS) :
  lawful c ->
  jwks (scope p) = Some ks ->
  bearer_token req = Some token ->
  JS.startsWith token "demo-token" = false ->
  signature_valid c token ks (world p) = false
  \/ (exists payload,
        well_formed c token (verify_options (scope p)) = Some payload
        /\ OKTA_AUDIENCE (scope p) <> ""
        /\ OKTA_AUDIENCE (scope p) ∉ aud payload) ->
  fst (validateToken req p) = Sent invalid_token
  /\ status invalid_token = 401%Z
  /\ forall req', fst (validateToken req p) <> Next req'.
Proof.
  intros L Hk Ht Hd Hbad.
  assert (Hs : fst (validateToken req p) = Sent invalid_token).
  { destruct (fst (jwtVerify token ks (verify_options (scope p)) (world p)))
      as [payload|error] eqn:Hv.
    - exfalso.
      destruct (lawful_Verified c _ _ _ _ _ L Hv) as (Hw & _ & Hsig & Hc & _).
      destruct Hbad as [Hbad|(pl & Hw' & Hne & Hnot)]; [congruence|].
      rewrite Hw in Hw'. injection Hw' as <-.
      apply Hnot. exact (claims_match_audience _ _ Hc Hne).
    - exact (validateToken_thrown p req token ks error Hk Ht Hd Hv). }
  rewrite Hs. repeat split. discriminate.
Qed.

Lemma badly_signed_or_wrong_audience_rejected_witness :
  fst (@validateToken Clocked.idp (Stub.bearer Stub.signed)
         (Clocked.started Stub.other_audience (Clocked.at_time 0)))
  = Sent invalid_token.
Proof.
  apply (@badly_signed_or_wrong_audience_rejected Clocked.idp Clocked.checks
           (Clocked.started Stub.other_audience (Clocked.at_time 0))
           (Stub.bearer Stub.signed) Stub.signed
           (createRemoteJWKSet {| href := "https://idp.example/oauth2/default/v1/keys" |})).
  - exact clocked_lawful.
  - vm_compute; reflexivity.
  - vm_compute; reflexivity.
  - vm_compute; reflexivity.
  - right. exists Stub.alice. split; [vm_compute; reflexivity|]. split.
    + vm_compute; discriminate.
    + apply (bool_decide_unpack _). vm_compute. exact I.
Defined.

(** C3 as stated fails.  In a deployment without issuer the gate admits a
    forged token, and a properly signed token issued for another audience,
    although jose rejects both against any key set.  And in a deployment with
    an issuer but no audience configured, a properly signed token is admitted
    although its audience is not the (empty) configured one. *)
Lemma bad_tokens_admitted_without_issuer_or_audience :
  @boot Stub.idp Stub.unconfigured 0%nat = Some (Stub.started Stub.unconfigured)
  /\ (forall ks : JWKS,
        fst (Stub.verify Stub.forged ks
               (verify_options (scope (Stub.started Stub.unconfigured))) 0%nat)
        = Thrown JWSSignatureVerificationFailed)
  /\ fst (@validateToken Stub.idp (Stub.bearer Stub.forged) (Stub.started Stub.unconfigured))
     = Next (Stub.bearer Stub.forged)
  /\ (forall ks : JWKS,
        fst (Stub.verify Stub.signed ks
               (verify_options (scope (Stub.started Stub.unconfigured))) 0%nat)
        = Thrown (JWTClaimValidationFailed "aud"))
  /\ fst (@validateToken Stub.idp (Stub.bearer Stub.signed) (Stub.started Stub.unconfigured))
     = Next (Stub.bearer Stub.signed)
  /\ @boot Stub.idp Stub.issuer_only 0%nat = Some (Stub.started Stub.issuer_only)
  /\ OKTA_AUDIENCE (scope (Stub.started Stub.issuer_only)) = ""
  /\ aud Stub.alice = ["api://progear"]
  /\ fst (@validateToken Stub.idp (Stub.bearer Stub.signed) (Stub.started Stub.issuer_only))
     = Next (set_user (Stub.bearer Stub.signed) Stub.alice).
Proof.
  repeat split; try intros ks; vm_compute; reflexivity.
Qed.

(** ** Verified identity *)

Lemma validateToken_verified `{Jose}
    (p : Process) (req : Request) (token : string) (ks : JWKS) (payload : JWTPayload) :
  jwks (scope p) = Some ks ->
  bearer_token req = Some token ->
  JS.startsWith token "demo-token" = false ->
  fst (jwtVerify token ks (verify_options (scope p)) (world p)) = Verified payload ->
  fst (validateToken req p) = Next (set_user req payload).
Proof.
  intros Hk Ht Hd Hv.
  rewrite (validateToken_verify p req token ks Hk Ht Hd).
  destruct (jwtVerify _ _ _ _) as [r w']. simpl in Hv. now subst r.
Qed.

(** C4, as the code has it.  With a resolver in place, a request is admitted
    with its claims when its token (not starting with "demo-token") is well
    formed and correctly signed, names the configured issuer and audience,
    and moreover is within its validity period while the keys can be had:
    [next()] is then called with the request carrying the decoded payload as
    [user], the subject among its claims. *)
Theorem valid_token_admitted_with_claims `{Jose} (c : JoseChecks)
    (p : Process) (req : Request) (token : string) (ks : JWKS) (payload : JWTPayload) :
  lawful c ->
  jwks (scope p) = Some ks ->
  bearer_token req = Some token ->
  JS.startsWith token "demo-token" = false ->
  well_formed c token (verify_options (scope p)) = Some payload ->
  keys_available c ks (world p) = true ->
  signature_valid c token ks (world p) = true ->
  iss payload = Some (OKTA_ISSUER (scope p)) ->
  OKTA_AUDIENCE (scope p) ∈ aud payload ->
  time_valid c payload (world p) = true ->
  exists req',
    fst (validateToken req p) = Next req'
    /\ user req' = Some payload
    /\ (user req' ≫= sub) = sub payload
    /\ authorization req' = authorization req
    /\ url req' = url req.
Proof.
  intros [_ L] Hk Ht Hd Hw Hka Hsig Hi Ha Htime.
  exists (set_user req payload).
  rewrite (validateToken_verified p req token ks payload Hk Ht Hd).
  - repeat split.
  - apply L. unfold would_accept. rewrite Hw, Hka, Hsig, Htime.
    now rewrite (claims_match_intro (verify_options (scope p)) payload Hi Ha).
Qed.

Lemma valid_token_admitted_with_claims_witness :
  exists req',
    fst (@validateToken Clocked.idp (Stub.bearer Clocked.short_lived)
           (Clocked.started Stub.configured (Clocked.at_time 1700000000)))
    = Next req'
    /\ user req' = Some Clocked.bob
    /\ (user req' ≫= sub) = Some "bob"
    /\ authorization req' = authorization (Stub.bearer Clocked.short_lived)
    /\ url req' = "/mcp/tools/get_orders".
Proof.
  apply (@valid_token_admitted_with_claims Clocked.idp Clocked.checks
           (Clocked.started Stub.configured (Clocked.at_time 1700000000))
           (Stub.bearer Clocked.short_lived) Clocked.short_lived
           (createRemoteJWKSet {| href := "https://idp.example/oauth2/default/v1/keys" |})
           Clocked.bob);
    first [ exact clocked_lawful
          | apply (bool_decide_unpack _); vm_compute; exact I
          | vm_compute; reflexivity ].
Defined.

(** C4 as stated fails.  A correctly signed token that names the configured
    issuer and audience is answered with 401 once it has expired, and also
    while the key endpoint cannot be reached. *)
Lemma matching_token_rejected_when_expired_or_keys_down :
  Clocked.lookup Clocked.short_lived = Some (true, Clocked.bob)
  /\ iss Clocked.bob
     = Some (OKTA_ISSUER (scope (Clocked.started Stub.configured
                                   (Clocked.at_time Clocked.expiry))))
  /\ aud Clocked.bob
     = [OKTA_AUDIENCE (scope (Clocked.started Stub.configured
                                (Clocked.at_time Clocked.expiry)))]
  /\ exp Clocked.bob = Some (Clocked.now (Clocked.at_time Clocked.expiry))
  /\ fst (@validateToken Clocked.idp (Stub.bearer Clocked.short_lived)
            (Clocked.started Stub.configured (Clocked.at_time Clocked.expiry)))
     = Sent invalid_token
  /\ fst (@validateToken Clocked.idp (Stub.bearer Clocked.short_lived)
            (Clocked.started Stub.configured (Clocked.keys_down 1700000000)))
     = Sent invalid_token.
Proof.
  repeat split; vm_compute; reflexivity.
Qed.

(** ** Requests without a usable header *)

(** C5.  Without an [Authorization] header and with [NODE_ENV] other than
    "development", the gate answers 401 with the body
    [{ error: 'Missing authorization header' }]; [next()] is not called and
    the process state is untouched. *)
Theorem missing_header_rejected `{Jose} (p : Process) (req : Request) :
  authorization req = None ->
  env p !! "NODE_ENV" <> Some "development" ->
  validateToken req p = (Sent missing_header, p)
  /\ status missing_header = 401%Z
  /\ json missing_header = [("error", "Missing authorization header")].
Proof.
  intros Hauth Hmode.
  rewrite (validateToken_no_header req p Hauth).
  now rewrite (without_bearer_closed req p Hmode).
Qed.

Lemma missing_header_rejected_witness :
  @validateToken Stub.idp (Stub.request None) (Stub.started Stub.configured)
  = (Sent {| status := 401; json := [("error", "Missing authorization header")] |},
     Stub.started Stub.configured).
Proof.
  apply (@missing_header_rejected Stub.idp (Stub.started Stub.configured)
           (Stub.request None)); vm_compute; [reflexivity | discriminate].
Defined.

(** C6.  Without an [Authorization] header and with [NODE_ENV] equal to
    "development", the gate logs that validation is skipped and calls
    [next()] with the request as it came: nothing is attached as [user]. *)
Theorem missing_header_admitted_in_development `{Jose} (p : Process) (req : Request) :
  authorization req = None ->
  env p !! "NODE_ENV" = Some "development" ->
  validateToken req p
  = (Next req,
     logging (console_log [LStr "[MCP] Demo mode - skipping token validation"]) p).
Proof.
  intros Hauth Hmode.
  rewrite (validateToken_no_header req p Hauth).
  exact (without_bearer_development req p Hmode).
Qed.

Lemma missing_header_admitted_in_development_witness :
  fst (@validateToken Stub.idp (Stub.request None) (Stub.started Stub.development))
  = Next (Stub.request None)
  /\ user (Stub.request None) = None.
Proof.
  split; [|reflexivity].
  rewrite (@missing_header_admitted_in_development Stub.idp
             (Stub.started Stub.development) (Stub.request None));
    vm_compute; reflexivity.
Defined.

(** ** One rejection for every verification error *)

(** C7.  Whenever jose's verification throws, whatever it throws (bad
    signature, issuer or audience mismatch, expiry, failure to fetch the
    keys, malformed token), the caller gets the same answer: 401 with
    [{ error: 'Invalid token' }].  Two failing validations cannot be told
    apart by their responses; the kind of error only reaches the server's
    own console. *)
Theorem verification_errors_collapse `{Jose}
    (p1 p2 : Process) (req1 req2 : Request) (token1 token2 : string)
    (ks1 ks2 : JWKS) (error1 error2 : JOSEError) :
  jwks (scope p1) = Some ks1 ->
  jwks (scope p2) = Some ks2 ->
  bearer_token req1 = Some token1 ->
  bearer_token req2 = Some token2 ->
  JS.startsWith token1 "demo-token" = false ->
  JS.startsWith token2 "demo-token" = false ->
  fst (jwtVerify token1 ks1 (verify_options (scope p1)) (world p1)) = Thrown error1 ->
  fst (jwtVerify token2 ks2 (verify_options (scope p2)) (world p2)) = Thrown error2 ->
  fst (validateToken req1 p1) = fst (validateToken req2 p2)
  /\ fst (validateToken req1 p1)
     = Sent {| status := 401; json := [("error", "Invalid token")] |}.
Proof.
  intros Hk1 Hk2 Ht1 Ht2 Hd1 Hd2 Hv1 Hv2.
  rewrite (validateToken_thrown p1 req1 token1 ks1 error1 Hk1 Ht1 Hd1 Hv1).
  rewrite (validateToken_thrown p2 req2 token2 ks2 error2 Hk2 Ht2 Hd2 Hv2).
  split; reflexivity.
Qed.

Lemma verification_errors_collapse_witness :
  fst (@validateToken Stub.idp (Stub.bearer Stub.forged) (Stub.started Stub.configured))
  = fst (@validateToken Stub.idp (Stub.bearer Stub.signed) (Stub.started Stub.other_audience)).
Proof.
  apply (@verification_errors_collapse Stub.idp
           (Stub.started Stub.configured) (Stub.started Stub.other_audience)
           (Stub.bearer Stub.forged) (Stub.bearer Stub.signed)
           Stub.forged Stub.signed
           (createRemoteJWKSet {| href := "https://idp.example/oauth2/default/v1/keys" |})
           (createRemoteJWKSet {| href := "https://idp.example/oauth2/default/v1/keys" |})
           JWSSignatureVerificationFailed (JWTClaimValidationFailed "aud"));
    vm_compute; reflexivity.
Defined.

(** ** The key-set resolver and the state a validation leaves behind *)

Lemma validate_all_cons `{Jose} (req : Request) (reqs : list Request) (p : Process) :
  validate_all (req :: reqs) p
  = let (o, p1) := validateToken req p in
    let (os, p2) := validate_all reqs p1 in
    (o :: os, p2).
Proof.
  simpl. unfold bind, ret.
  destruct (validateToken req p) as [o p1].
  now destruct (validate_all reqs p1) as [os p2].
Qed.

Lemma validate_all_frame `{Jose} (reqs : list Request) (p : Process) :
  scope (snd (validate_all reqs p)) = scope p
  /\ env (snd (validate_all reqs p)) = env p
  /\ exists lines, console (snd (validate_all reqs p)) = console p ++ lines.
Proof.
  revert p; induction reqs as [|req reqs IH]; intros p.
  - simpl. unfold ret. frame_done.
  - rewrite validate_all_cons.
    destruct (validateToken_frame req p) as (Hs & He & lines & Hc).
    destruct (validateToken req p) as [o p1]. simpl in Hs, He, Hc.
    destruct (IH p1) as (Hs' & He' & lines' & Hc').
    destruct (validate_all reqs p1) as [os p2]. simpl in *.
    split; [congruence|]. split; [congruence|].
    exists (lines ++ lines'). rewrite Hc', Hc. symmetry. apply app_assoc.
Qed.

(** A validation touches the outside world only by asking jose about the
    request's token, with the resolver and options of the module scope. *)
Lemma validateToken_world `{Jose} (req : Request) (p : Process) :
  world (snd (validateToken req p)) = world p
  \/ exists token ks,
       bearer_token req = Some token /\ jwks (scope p) = Some ks
       /\ world (snd (validateToken req p))
          = snd (jwtVerify token ks (verify_options (scope p)) (world p)).
Proof.
  unfold validateToken, bearer_token.
  assert (Hw : world (snd (without_bearer req p)) = world p).
  { unfold without_bearer, bind, getenv. now case_bool_decide. }
  destruct (authorization req) as [h|]; [|now left].
  destruct (negb (JS.truthy h) || negb (JS.startsWith h "Bearer ")); [now left|].
  unfold with_bearer, bind, get_scope, await_jwtVerify, verify_options.
  destruct (JS.index _ _) as [token|]; [|now left].
  destruct (JS.startsWith token "demo-token"); [now left|].
  destruct (jwks (scope p)) as [ks|]; [|now left].
  right. exists token, ks. repeat split.
  now destruct (jwtVerify _ _ _ _) as [[payload|error] w'].
Qed.

Lemma boot_inv `{Jose} (e : gmap string string) (w : World) (p : Process) :
  boot e w = Some p ->
  load_module e = Some (scope p) /\ env p = e /\ console p = listening e /\ world p = w.
Proof.
  unfold boot. destruct (load_module e) as [m|]; [|discriminate].
  now intros [= <-].
Qed.






(** ** Determinism *)

Lemma decision_without_bearer `{Jose} (req : Request) (p : Process) :
  decision (fst (without_bearer req p))
  = if bool_decide (env p !! "NODE_ENV" = Some "development")
    then Admit else Reject missing_header.
Proof.
  unfold without_bearer, bind, getenv. now case_bool_decide.
Qed.

Lemma decision_with_bearer `{Jose} (req : Request) (h : string) (p : Process) :
  decision (fst (with_bearer req h p))
  = match JS.index (JS.split h " ") 1 with
    | None => Hang
    | Some token =>
        if JS.startsWith token "demo-token" then Admit
        else match jwks (scope p) with
             | None => Admit
             | Some ks =>
                 if accepts (fst (jwtVerify token ks (verify_options (scope p)) (world p)))
                 then Admit else Reject invalid_token
             end
    end.
Proof.
  unfold with_bearer, bind, get_scope, await_jwtVerify, verify_options.
  destruct (JS.index _ _) as [token|]; [|reflexivity].
  destruct (JS.startsWith token "demo-token"); [reflexivity|].
  destruct (jwks (scope p)) as [ks|]; [|reflexivity].
  now destruct (jwtVerify _ _ _ _) as [[payload|error] w'].
Qed.

(** In the same outside world jose gives the same verdict. *)
Lemma verdict_same_world `{Jose} (p1 p2 : Process) (req1 req2 : Request) :
  authorization req1 = authorization req2 ->
  scope p1 = scope p2 ->
  world p1 = world p2 ->
  verdict req1 p1 = verdict req2 p2.
Proof.
  unfold verdict, bearer_token. now intros -> -> ->.
Qed.

Lemma decision_by_verdict `{Jose} (p1 p2 : Process) (req1 req2 : Request) :
  authorization req1 = authorization req2 ->
  env p1 !! "NODE_ENV" = env p2 !! "NODE_ENV" ->
  scope p1 = scope p2 ->
  verdict req1 p1 = verdict req2 p2 ->
  decision (fst (validateToken req1 p1)) = decision (fst (validateToken req2 p2)).
Proof.
  intros Ha He Hs Hv.
  unfold verdict, bearer_token in Hv. unfold validateToken.
  rewrite Ha in *. rewrite Hs in *.
  destruct (authorization req2) as [h|].
  2:{ now rewrite !decision_without_bearer, He. }
  destruct (negb (JS.truthy h) || negb (JS.startsWith h "Bearer ")).
  { now rewrite !decision_without_bearer, He. }
  rewrite !decision_with_bearer, Hs.
  destruct (JS.index _ _) as [token|]; [|reflexivity].
  destruct (jwks (scope p2)) as [ks|]; [|reflexivity].
  destruct (JS.startsWith token "demo-token"); [reflexivity|].
  injection Hv as ->. reflexivity.
Qed.

Lemma verdict_by_world_facts `{Jose} (c : JoseChecks) (p1 p2 : Process) (req1 req2 : Request) :
  lawful c ->
  authorization req1 = authorization req2 ->
  scope p1 = scope p2 ->
  world_facts c req1 p1 = world_facts c req2 p2 ->
  verdict req1 p1 = verdict req2 p2.
Proof.
  intros L Ha Hs Hf. unfold verdict, world_facts, bearer_token in *.
  rewrite Ha in *. rewrite Hs in *.
  destruct (match authorization req2 with Some _ => _ | None => _ end) as [token|];
    [|reflexivity].
  destruct (jwks (scope p2)) as [ks|]; [|reflexivity].
  destruct (JS.startsWith token "demo-token"); [reflexivity|].
  f_equal. rewrite !(lawful_accepts c) by exact L.
  injection Hf as Hka Hsig Htime. unfold would_accept.
  destruct (well_formed c token (verify_options (scope p2))) as [payload|];
    [|reflexivity].
  simpl in Htime. injection Htime as Htime. now rewrite Hka, Hsig, Htime.
Qed.

(** C9, as the code has it.  Two validations of the same header under the
    same configuration ([NODE_ENV], issuer, audience, resolver) decide alike
    as long as the outside world gives jose the same to go on: the keys can
    be had or not in both, the signature verifies under them or not in both,
    and the token is within its validity period or not in both.  Nothing
    else counts: not the rest of the request, not the console, not how many
    validations ran before. *)
Theorem same_keys_and_time_same_decision `{Jose} (c : JoseChecks)
    (p1 p2 : Process) (req1 req2 : Request) :
  lawful c ->
  authorization req1 = authorization req2 ->
  env p1 !! "NODE_ENV" = env p2 !! "NODE_ENV" ->
  scope p1 = scope p2 ->
  world_facts c req1 p1 = world_facts c req2 p2 ->
  decision (fst (validateToken req1 p1)) = decision (fst (validateToken req2 p2)).
Proof.
  intros L Ha He Hs Hf.
  apply decision_by_verdict; try assumption.
  exact (verdict_by_world_facts c p1 p2 req1 req2 L Ha Hs Hf).
Qed.

Lemma same_keys_and_time_same_decision_witness :
  decision (fst (@validateToken Clocked.idp (Stub.bearer Clocked.short_lived)
                   (Clocked.started Stub.configured (Clocked.at_time 1700000000))))
  = decision (fst (@validateToken Clocked.idp
                     {| authorization := Some ("Bearer " +:+ Clocked.short_lived);
                        url := "/mcp/tools/list_products";
                        user := Some Stub.alice |}
                     (snd (@validateToken Clocked.idp (Stub.bearer Stub.forged)
                             (Clocked.started Stub.configured
                                (Clocked.at_time 1700003599)))))).
Proof.
  apply (@same_keys_and_time_same_decision Clocked.idp Clocked.checks);
    first [ exact clocked_lawful | vm_compute; reflexivity ].
Defined.

(** C9 as stated fails.  The same request with the same token, under the same
    configuration and with the same keys in reach, is admitted one second
    before the token expires and answered with 401 at the time of expiry. *)
Lemma decision_changes_at_expiry :
  scope (Clocked.started Stub.configured (Clocked.at_time (Clocked.expiry - 1)))
  = scope (Clocked.started Stub.configured (Clocked.at_time Clocked.expiry))
  /\ env (Clocked.started Stub.configured (Clocked.at_time (Clocked.expiry - 1)))
     = env (Clocked.started Stub.configured (Clocked.at_time Clocked.expiry))
  /\ Clocked.reachable (Clocked.at_time (Clocked.expiry - 1))
     = Clocked.reachable (Clocked.at_time Clocked.expiry)
  /\ decision (fst (@validateToken Clocked.idp (Stub.bearer Clocked.short_lived)
                      (Clocked.started Stub.configured
                         (Clocked.at_time (Clocked.expiry - 1)))))
     = Admit
  /\ decision (fst (@validateToken Clocked.idp (Stub.bearer Clocked.short_lived)
                      (Clocked.started Stub.configured (Clocked.at_time Clocked.expiry))))
     = Reject invalid_token.
Proof.
  repeat split; vm_compute; reflexivity.
Qed.

(** ** Headers with another scheme *)

(** C10.  A header that does not start with "Bearer " is handled by the very
    branch that handles a missing header: the validation leaves the same
    process state and takes the same decision as for the request stripped of
    its header.  In development mode the request is passed on untouched under
    the "skipping token validation" log line (not the demo-token one);
    otherwise it gets the 401 for a missing header.  A bare "demo-token..."
    credential is such a header, so it never reaches the demo bypass. *)
Theorem other_scheme_treated_as_missing `{Jose} (p : Process) (req : Request) (h : string) :
  authorization req = Some h ->
  JS.startsWith h "Bearer " = false ->
  snd (validateToken req p) = snd (validateToken (set_authorization req None) p)
  /\ decision (fst (validateToken req p))
     = decision (fst (validateToken (set_authorization req None) p))
  /\ (env p !! "NODE_ENV" = Some "development" ->
      validateToken req p
      = (Next req,
         logging (console_log [LStr "[MCP] Demo mode - skipping token validation"]) p))
  /\ (env p !! "NODE_ENV" <> Some "development" ->
      validateToken req p = (Sent missing_header, p)).
Proof.
  intros Hauth Hh.
  rewrite (validateToken_other_scheme req h p Hauth Hh).
  rewrite (validateToken_no_header (set_authorization req None) p eq_refl).
  repeat split.
  - unfold without_bearer, bind, getenv. now case_bool_decide.
  - now rewrite !decision_without_bearer.
  - apply without_bearer_development.
  - apply without_bearer_closed.
Qed.

Lemma other_scheme_treated_as_missing_witness :
  JS.startsWith "demo-token-alice" "demo-token" = true
  /\ @validateToken Stub.idp (Stub.request (Some "demo-token-alice"))
       (Stub.started Stub.configured)
     = (Sent missing_header, Stub.started Stub.configured)
  /\ decision (fst (@validateToken Stub.idp (Stub.request (Some "demo-token-alice"))
                      (Stub.started Stub.development)))
     = decision (fst (@validateToken Stub.idp (Stub.request None)
                        (Stub.started Stub.development))).
Proof.
  split; [reflexivity|]. split.
  - apply (@other_scheme_treated_as_missing Stub.idp (Stub.started Stub.configured)
             (Stub.request (Some "demo-token-alice")) "demo-token-alice");
      vm_compute; [reflexivity | reflexivity | discriminate].
  - apply (@other_scheme_treated_as_missing Stub.idp (Stub.started Stub.development)
             (Stub.request (Some "demo-token-alice")) "demo-token-alice");
      vm_compute; reflexivity.
Defined.

(** * Further properties of the gate *)

Lemma bearer_token_None_without `{Jose} (req : Request) (p : Process) :
  bearer_token req = None -> validateToken req p = without_bearer req p.
Proof.
  unfold bearer_token, validateToken.
  destruct (authorization req) as [h|]; [|reflexivity].
  destruct (JS.startsWith h "Bearer ") eqn:Hh.
  - rewrite (JSFacts.startsWith_truthy "Bearer " h) by (discriminate || assumption).
    change (negb true || negb true) with false. cbv iota.
    destruct (JSFacts.index_split_defined h Hh) as [token Ht].
    rewrite Ht. discriminate.
  - now rewrite orb_true_r.
Qed.

Lemma bearer_token_cases (req : Request) :
  bearer_token req = None \/ exists token, bearer_token req = Some token.
Proof. destruct (bearer_token req) as [token|]; eauto. Qed.

Lemma validateToken_with_token `{Jose} (req : Request) (token : string) (p : Process) :
  bearer_token req = Some token ->
  validateToken req p
  = if JS.startsWith token "demo-token" then
      (Next req, logging (console_log [LStr "[MCP] Demo token accepted"]) p)
    else
      match jwks (scope p) with
      | None =>
          (Next req,
           logging (console_log [LStr "[MCP] No JWKS configured, accepting token"]) p)
      | Some ks =>
          let (r, w') := jwtVerify token ks (verify_options (scope p)) (world p) in
          let p' := {| env := env p; scope := scope p; console := console p; world := w' |} in
          match r with
          | Verified payload =>
              (Next (set_user req payload),
               logging (console_log [LStr "[MCP] Token validated:"; log_sub payload]) p')
          | Thrown error =>
              (Sent invalid_token,
               logging (console_error [LStr "[MCP] Token validation failed:"; LErr error]) p')
          end
      end.
Proof.
  intros Ht.
  destruct (bearer_token_inv req token Ht) as (h & Hauth & Hh & Hi).
  rewrite (validateToken_bearer req h p Hauth Hh).
  destruct (JS.startsWith token "demo-token") eqn:Hd.
  - exact (with_bearer_demo req h token p Hi Hd).
  - destruct (jwks (scope p)) as [ks|] eqn:Hk.
    + exact (with_bearer_verify req h token ks p Hi Hd Hk).
    + exact (with_bearer_no_jwks req h token p Hi Hd Hk).
Qed.

(** X1.  The gate calls [next()] for one of four reasons only: no bearer
    token in development mode; a token with the demo prefix; no resolver
    configured; or a token jose verified.  Only in the last case does the
    handler see a changed request, namely the one carrying the verified
    payload as [user]. *)
Theorem admission_has_a_reason `{Jose} (req req' : Request) (p : Process) :
  fst (validateToken req p) = Next req' ->
  (bearer_token req = None /\ env p !! "NODE_ENV" = Some "development" /\ req' = req)
  \/ (exists token,
        bearer_token req = Some token /\ JS.startsWith token "demo-token" = true
        /\ req' = req)
  \/ (exists token,
        bearer_token req = Some token /\ JS.startsWith token "demo-token" = false
        /\ jwks (scope p) = None /\ req' = req)
  \/ (exists token ks payload,
        bearer_token req = Some token /\ JS.startsWith token "demo-token" = false
        /\ jwks (scope p) = Some ks
        /\ fst (jwtVerify token ks (verify_options (scope p)) (world p)) = Verified payload
        /\ req' = set_user req payload).
Proof.
  destruct (bearer_token_cases req) as [Hb|[token Hb]].
  - rewrite (bearer_token_None_without req p Hb).
    unfold without_bearer, bind, getenv. case_bool_decide as Hm; simpl; [|discriminate].
    intros [= <-]. now left.
  - rewrite (validateToken_with_token req token p Hb).
    destruct (JS.startsWith token "demo-token") eqn:Hd.
    { intros [= <-]. right; left. now exists token. }
    destruct (jwks (scope p)) as [ks|] eqn:Hk.
    2:{ intros [= <-]. right; right; left. now exists token. }
    destruct (jwtVerify _ _ _ _) as [[payload|error] w'] eqn:Hv; simpl; [|discriminate].
    intros [= <-]. right; right; right. exists token, ks, payload.
    rewrite Hv. now repeat split.
Qed.

Lemma admission_has_a_reason_witness :
  exists token ks payload,
    bearer_token (Stub.bearer Stub.signed) = Some token
    /\ JS.startsWith token "demo-token" = false
    /\ jwks (scope (Stub.started Stub.configured)) = Some ks
    /\ fst (Stub.verify token ks (verify_options (scope (Stub.started Stub.configured))) 0%nat)
       = Verified payload
    /\ set_user (Stub.bearer Stub.signed) Stub.alice = set_user (Stub.bearer Stub.signed) payload.
Proof.
  destruct (@admission_has_a_reason Stub.idp (Stub.bearer Stub.signed)
              (set_user (Stub.bearer Stub.signed) Stub.alice)
              (Stub.started Stub.configured))
    as [(Hb & _)|[(token & Hb & Hd & _)|[(token & Hb & Hd & Hk & _)|Hv]]].
  - vm_compute; reflexivity.
  - discriminate Hb.
  - injection Hb as <-. discriminate Hd.
  - discriminate Hk.
  - exact Hv.
Defined.

(** X2.  The gate sends a response of its own for one of two reasons only:
    the missing-header 401 when there is no bearer token outside development
    mode (and then nothing is logged and jose is not consulted), or the
    invalid-token 401 when a resolver exists and jose threw on a token
    without the demo prefix. *)
Theorem rejection_has_a_reason `{Jose} (req : Request) (res : Response) (p : Process) :
  fst (validateToken req p) = Sent res ->
  (res = missing_header /\ bearer_token req = None
   /\ env p !! "NODE_ENV" <> Some "development"
   /\ snd (validateToken req p) = p)
  \/ (res = invalid_token
      /\ exists token ks error,
           bearer_token req = Some token /\ JS.startsWith token "demo-token" = false
           /\ jwks (scope p) = Some ks
           /\ fst (jwtVerify token ks (verify_options (scope p)) (world p)) = Thrown error).
Proof.
  destruct (bearer_token_cases req) as [Hb|[token Hb]].
  - rewrite (bearer_token_None_without req p Hb).
    unfold without_bearer, bind, getenv. case_bool_decide as Hm; simpl; [discriminate|].
    intros [= <-]. now left.
  - rewrite (validateToken_with_token req token p Hb).
    destruct (JS.startsWith token "demo-token") eqn:Hd; [discriminate|].
    destruct (jwks (scope p)) as [ks|] eqn:Hk; [|discriminate].
    destruct (jwtVerify _ _ _ _) as [[payload|error] w'] eqn:Hv; simpl; [discriminate|].
    intros [= <-]. right. split; [reflexivity|]. exists token, ks, error.
    rewrite Hv. now repeat split.
Qed.

Lemma rejection_has_a_reason_witness :
  snd (@validateToken Stub.idp (Stub.request (Some "Basic dXNlcjpwdw=="))
         (Stub.started Stub.configured))
  = Stub.started Stub.configured.
Proof.
  destruct (@rejection_has_a_reason Stub.idp (Stub.request (Some "Basic dXNlcjpwdw=="))
              missing_header (Stub.started Stub.configured))
    as [(_ & _ & _ & Hs)|(Hr & _)].
  - vm_compute; reflexivity.
  - exact Hs.
  - discriminate Hr.
Defined.

Lemma sent_status_401 `{Jose} (req : Request) (res : Response) (p : Process) :
  fst (validateToken req p) = Sent res -> status res = 401%Z.
Proof.
  destruct (bearer_token_cases req) as [Hb|[token Hb]].
  - rewrite (bearer_token_None_without req p Hb).
    unfold without_bearer, bind, getenv. case_bool_decide; simpl; [discriminate|].
    now intros [= <-].
  - rewrite (validateToken_with_token req token p Hb).
    destruct (JS.startsWith token "demo-token"); [discriminate|].
    destruct (jwks (scope p)) as [ks|]; [|discriminate].
    destruct (jwtVerify _ _ _ _) as [[payload|error] w']; simpl; [discriminate|].
    now intros [= <-].
Qed.

(** X3.  Every validation ends in [next()] or in a response with status 401:
    the token taken from the split header is never [undefined], so the
    middleware never rejects its promise and never leaves a request
    unanswered, and it sends no status other than 401. *)
Theorem validateToken_always_answers `{Jose} (req : Request) (p : Process) :
  (exists req', fst (validateToken req p) = Next req')
  \/ (exists res, fst (validateToken req p) = Sent res /\ status res = 401%Z).
Proof.
  destruct (fst (validateToken req p)) as [req'|res|what] eqn:E.
  - left. now exists req'.
  - right. exists res. split; [reflexivity|]. exact (sent_status_401 req res p E).
  - now destruct (validateToken_never_uncaught req p what).
Qed.

Lemma split_without_sep (t : string) (sep : ascii) :
  JS.occurs sep t = false -> JS.split t sep = [t].
Proof.
  induction t as [|c t IH]; simpl; [reflexivity|].
  intros Ht. apply orb_false_elim in Ht as [Hc Ht].
  now rewrite Hc, (IH Ht).
Qed.

Lemma split_first_piece (t rest : string) (sep : ascii) :
  JS.occurs sep t = false ->
  nth_error (JS.split (t +:+ String sep rest) sep) 0 = Some t.
Proof.
  intros Ht. now rewrite JSFacts.split_app_sep.
Qed.

Lemma same_token_same_treatment `{Jose} (req1 req2 : Request) (token : string) (p : Process) :
  bearer_token req1 = Some token ->
  bearer_token req2 = Some token ->
  decision (fst (validateToken req1 p)) = decision (fst (validateToken req2 p))
  /\ snd (validateToken req1 p) = snd (validateToken req2 p).
Proof.
  intros H1 H2.
  rewrite (validateToken_with_token req1 token p H1).
  rewrite (validateToken_with_token req2 token p H2).
  destruct (JS.startsWith token "demo-token"); [now split|].
  destruct (jwks (scope p)) as [ks|]; [|now split].
  now destruct (jwtVerify _ _ _ _) as [[payload|error] w'].
Qed.

(** X4.  Only the piece of the header between the first and the second
    space counts.  Whatever follows a space-free token after a further space
    is ignored: the request is decided, logged and verified exactly like the
    one carrying the token alone. *)
Theorem header_tail_ignored `{Jose}
    (req1 req2 : Request) (t rest : string) (p : Process) :
  JS.occurs " " t = false ->
  authorization req1 = Some ("Bearer " +:+ t) ->
  authorization req2 = Some ("Bearer " +:+ t +:+ " " +:+ rest) ->
  bearer_token req2 = Some t
  /\ decision (fst (validateToken req1 p)) = decision (fst (validateToken req2 p))
  /\ snd (validateToken req1 p) = snd (validateToken req2 p).
Proof.
  intros Ht H1 H2.
  assert (B1 : bearer_token req1 = Some t).
  { rewrite (bearer_token_Bearer req1 t H1). now rewrite split_without_sep. }
  assert (B2 : bearer_token req2 = Some t).
  { rewrite (bearer_token_Bearer req2 (t +:+ " " +:+ rest) H2).
    exact (split_first_piece t rest " " Ht). }
  split; [exact B2|]. exact (same_token_same_treatment req1 req2 t p B1 B2).
Qed.

Lemma header_tail_ignored_witness :
  bearer_token (Stub.bearer ("demo-token-1" +:+ " " +:+ "anything else")) = Some "demo-token-1"
  /\ decision (fst (@validateToken Stub.idp (Stub.bearer Stub.forged)
                      (Stub.started Stub.configured)))
     = decision (fst (@validateToken Stub.idp
                        (Stub.bearer (Stub.forged +:+ " " +:+ Stub.signed))
                        (Stub.started Stub.configured))).
Proof.
  split.
  - apply (@header_tail_ignored Stub.idp (Stub.bearer "demo-token-1")
             (Stub.bearer ("demo-token-1" +:+ " " +:+ "anything else"))
             "demo-token-1" "anything else" (Stub.started Stub.configured));
      vm_compute; reflexivity.
  - apply (@header_tail_ignored Stub.idp (Stub.bearer Stub.forged)
             (Stub.bearer (Stub.forged +:+ " " +:+ Stub.signed))
             Stub.forged Stub.signed (Stub.started Stub.configured));
      vm_compute; reflexivity.
Defined.

(** X6.  Whether the gate verifies at all is fixed at start-up and tied to
    the issuer: after start-up and after any sequence of requests, [jwks] is
    null exactly when [OKTA_ISSUER] is the empty string. *)
Theorem fail_open_iff_no_issuer `{Jose}
    (e : gmap string string) (w : World) (p : Process) (reqs : list Request) :
  boot e w = Some p ->
  (jwks (scope (snd (validate_all reqs p))) = None
   <-> OKTA_ISSUER (scope (snd (validate_all reqs p))) = "")
  /\ OKTA_ISSUER (scope (snd (validate_all reqs p))) = JS.or_empty (e !! "OKTA_ISSUER").
Proof.
  intros Hb. destruct (boot_inv e w p Hb) as (Hl & _).
  destruct (validate_all_frame reqs p) as (-> & _).
  unfold load_module, JS.truthy in Hl.
  destruct (String.eqb_spec (JS.or_empty (e !! "OKTA_ISSUER")) "") as [E|E]; simpl in Hl.
  - injection Hl as <-. simpl. now rewrite E.
  - destruct (new_URL _) as [u|]; [|discriminate].
    injection Hl as <-. simpl. split; [|reflexivity].
    split; [discriminate|]. intros E'. now destruct E.
Qed.

Lemma fail_open_iff_no_issuer_witness :
  OKTA_ISSUER (scope (snd (@validate_all Stub.idp
                             [Stub.bearer Stub.forged; Stub.request None]
                             (Stub.started Stub.unconfigured)))) = "".
Proof.
  destruct (@fail_open_iff_no_issuer Stub.idp Stub.unconfigured 0%nat
              (Stub.started Stub.unconfigured)
              [Stub.bearer Stub.forged; Stub.request None]) as [_ Hi].
  - vm_compute; reflexivity.
  - exact Hi.
Defined.

(** X7.  Without a resolver the gate never reaches jose: whatever requests
    arrive, and in whatever order, the outside world (network, key cache)
    stays exactly as it was. *)
Theorem unconfigured_gate_never_calls_jose `{Jose} (reqs : list Request) (p : Process) :
  jwks (scope p) = None ->
  world (snd (validate_all reqs p)) = world p.
Proof.
  revert p; induction reqs as [|req reqs IH]; intros p Hk; [reflexivity|].
  rewrite validate_all_cons.
  destruct (validateToken_frame req p) as (Hs & _).
  destruct (validateToken_world req p) as [Hw|(token & ks & _ & Hk' & _)].
  2:{ congruence. }
  destruct (validateToken req p) as [o p1]. simpl in Hs, Hw.
  specialize (IH p1). rewrite Hs in IH. specialize (IH Hk).
  destruct (validate_all reqs p1) as [os p2]. simpl in *. congruence.
Qed.

Lemma unconfigured_gate_never_calls_jose_witness :
  world (snd (@validate_all Stub.idp
                [Stub.bearer Stub.signed; Stub.bearer Stub.forged; Stub.bearer "x"]
                (Stub.started Stub.unconfigured)))
  = 0%nat.
Proof.
  apply (@unconfigured_gate_never_calls_jose Stub.idp
           [Stub.bearer Stub.signed; Stub.bearer Stub.forged; Stub.bearer "x"]
           (Stub.started Stub.unconfigured)).
  vm_compute; reflexivity.
Defined.

(** * The tool endpoints *)

Section Lookup.
Context {A : Type} (key : A -> string).

(** [xs.find(x => x.key === k)] over a table with distinct keys. *)
Lemma find_by_key_In (xs : list A) (x : A) :
  NoDup (map key xs) -> In x xs ->
  List.find (fun y => String.eqb (key y) (key x)) xs = Some x.
Proof.
  induction xs as [|y xs IH]; simpl; intros Hnd Hin; [contradiction|].
  apply NoDup_cons in Hnd as [Hy Hnd].
  destruct (String.eqb_spec (key y) (key x)) as [E|E].
  - destruct Hin as [->|Hin]; [reflexivity|].
    exfalso. apply Hy. rewrite E. apply list_elem_of_In, in_map, Hin.
  - destruct Hin as [->|Hin]; [now destruct E|]. now apply IH.
Qed.

Lemma find_by_key_Some (xs : list A) (k : string) (x : A) :
  List.find (fun y => String.eqb (key y) k) xs = Some x -> In x xs /\ key x = k.
Proof.
  intros Hf. apply find_some in Hf as [Hin Hk].
  split; [exact Hin|]. now apply String.eqb_eq.
Qed.

Lemma find_by_key_None (xs : list A) (k : string) :
  List.find (fun y => String.eqb (key y) k) xs = None <-> ~ In k (map key xs).
Proof.
  induction xs as [|y xs IH]; simpl; [tauto|].
  destruct (String.eqb_spec (key y) k) as [E|E].
  - split; [discriminate|]. intros Hn. destruct Hn. now left.
  - rewrite IH. tauto.
Qed.

End Lookup.

Lemma product_ids_distinct : NoDup (map Product.id Tools.products).
Proof. apply (bool_decide_unpack _). vm_compute. exact I. Qed.

Lemma customer_ids_distinct : NoDup (map Customer.id Tools.customers).
Proof. apply (bool_decide_unpack _). vm_compute. exact I. Qed.

Lemma list_products_result_In (category : option string) (p : Product.t) :
  match Tools.list_products category with
  | Tools.list_products_result result count => In p result -> In p Tools.products
  | _ => False
  end.
Proof.
  unfold Tools.list_products.
  destruct category as [c|]; [|tauto].
  destruct (JS.truthy c); [|tauto].
  intros Hin. apply list_elem_of_In, list_elem_of_filter in Hin as [_ Hin].
  now apply list_elem_of_In.
Qed.

(** X8.  Whatever the category filter, a product returned by [list_products]
    can be looked up by its id: [check_stock] and [get_price] answer 200 for it
    and report that very product's name, stock and price, with [available]
    telling whether the stock is positive.  (The ids of the table are
    distinct, so the look-up cannot hit another product.) *)
Theorem listed_product_can_be_looked_up
    (category : option string) (result : list Product.t) (count : nat) (p : Product.t) :
  Tools.list_products category = Tools.list_products_result result count ->
  In p result ->
  count = length result
  /\ Tools.check_stock (Product.id p)
     = Tools.check_stock_result (Product.id p) (Product.name p) (Product.stock p)
         (Z.ltb 0 (Product.stock p))
  /\ exists discounts,
       Tools.get_price (Product.id p)
       = Tools.get_price_result (Product.id p) (Product.name p) (Product.price p)
           "USD" discounts.
Proof.
  intros Hl Hin.
  assert (Hp : In p Tools.products).
  { pose proof (list_products_result_In category p) as H. rewrite Hl in H. auto. }
  split.
  { unfold Tools.list_products in Hl. now injection Hl as <- <-. }
  unfold Tools.check_stock, Tools.get_price.
  rewrite (find_by_key_In Product.id _ p product_ids_distinct Hp).
  split; [reflexivity|]. eexists. reflexivity.
Qed.

Lemma listed_product_can_be_looked_up_witness :
  Tools.check_stock "PROD-005"
  = Tools.check_stock_result "PROD-005" "Tennis Racket Elite" 30 true.
Proof.
  destruct (listed_product_can_be_looked_up (Some "TENNIS")
              [ {| Product.id := "PROD-005"; Product.name := "Tennis Racket Elite";
                   Product.category := "Tennis"; Product.price := QArith_base.Qmake 19999 100;
                   Product.stock := 30%Z |} ]
              1
              {| Product.id := "PROD-005"; Product.name := "Tennis Racket Elite";
                 Product.category := "Tennis"; Product.price := QArith_base.Qmake 19999 100;
                 Product.stock := 30%Z |})
    as (_ & Hc & _).
  - vm_compute; reflexivity.
  - simpl; left; reflexivity.
  - exact Hc.
Defined.

(** X9.  [check_stock] and [get_price] answer 404 "Product not found" for
    exactly the same ids, namely those of no product in the table; for every
    other id both answer 200 about the product with that id. *)
Theorem check_stock_and_get_price_agree (productId : string) :
  (~ In productId (map Product.id Tools.products)
   /\ Tools.check_stock productId = Tools.not_found "Product not found"
   /\ Tools.get_price productId = Tools.not_found "Product not found")
  \/ (exists p discounts,
        In p Tools.products /\ Product.id p = productId
        /\ Tools.check_stock productId
           = Tools.check_stock_result productId (Product.name p) (Product.stock p)
               (Z.ltb 0 (Product.stock p))
        /\ Tools.get_price productId
           = Tools.get_price_result productId (Product.name p) (Product.price p)
               "USD" discounts).
Proof.
  unfold Tools.check_stock, Tools.get_price.
  destruct (List.find _ Tools.products) as [p|] eqn:Hf.
  - right. destruct (find_by_key_Some Product.id _ _ _ Hf) as [Hin Hid].
    exists p. eexists. rewrite Hid. repeat split; assumption.
  - left. apply (find_by_key_None Product.id) in Hf. now repeat split.
Qed.

(** X10.  [get_customer] answers 200 with a customer of the table whose id is
    the one asked for, or 404 "Customer not found" when no customer has that
    id; it never answers with another customer's record. *)
Theorem get_customer_answers_for_that_id (customerId : string) :
  (~ In customerId (map Customer.id Tools.customers)
   /\ Tools.get_customer customerId = Tools.not_found "Customer not found")
  \/ (exists c,
        In c Tools.customers /\ Customer.id c = customerId
        /\ Tools.get_customer customerId = Tools.get_customer_result c
        /\ forall c', In c' Tools.customers -> Customer.id c' = customerId -> c' = c).
Proof.
  unfold Tools.get_customer.
  destruct (List.find _ Tools.customers) as [c|] eqn:Hf.
  - right. destruct (find_by_key_Some Customer.id _ _ _ Hf) as [Hin Hid].
    exists c. repeat split; try assumption.
    intros c' Hin' Hid'.
    pose proof (find_by_key_In Customer.id _ c' customer_ids_distinct Hin') as Hf'.
    rewrite Hid' in Hf'. congruence.
  - left. apply (find_by_key_None Customer.id) in Hf. now split.
Qed.

Lemma lower_unit_idempotent (c : ascii) :
  JSText.lower_unit (JSText.lower_unit c) = JSText.lower_unit c.
Proof.
  destruct c as [[] [] [] [] [] [] [] []]; vm_compute; reflexivity.
Qed.

Lemma toLowerCase_idempotent (s : string) :
  JSText.toLowerCase (JSText.toLowerCase s) = JSText.toLowerCase s.
Proof.
  induction s as [|c s IH]; simpl; [reflexivity|].
  now rewrite lower_unit_idempotent, IH.
Qed.

Lemma truthy_toLowerCase (s : string) :
  JS.truthy (JSText.toLowerCase s) = JS.truthy s.
Proof. now destruct s. Qed.

Lemma list_products_by_lowered (c1 c2 : string) :
  JSText.toLowerCase c1 = JSText.toLowerCase c2 ->
  Tools.list_products (Some c1) = Tools.list_products (Some c2).
Proof.
  intros E. unfold Tools.list_products.
  rewrite <- (truthy_toLowerCase c1), <- (truthy_toLowerCase c2), E.
  reflexivity.
Qed.

(** X11.  The category filter of [list_products] ignores case: two queries
    that agree after lower-casing give the same answer, and so does a query
    and its lower-cased form. *)
Theorem list_products_ignores_case (c1 c2 : string) :
  JSText.toLowerCase c1 = JSText.toLowerCase c2 ->
  Tools.list_products (Some c1) = Tools.list_products (Some c2)
  /\ Tools.list_products (Some (JSText.toLowerCase c1)) = Tools.list_products (Some c1).
Proof.
  intros E. split.
  - exact (list_products_by_lowered c1 c2 E).
  - apply list_products_by_lowered, toLowerCase_idempotent.
Qed.

Lemma list_products_ignores_case_witness :
  Tools.list_products (Some "FOOTWEAR") = Tools.list_products (Some "fooTwear").
Proof.
  apply (list_products_ignores_case "FOOTWEAR" "fooTwear"). vm_compute; reflexivity.
Defined.

(** X12.  [get_orders] always answers 200 with [count] equal to the number of
    orders returned.  A missing or empty [status] returns the whole table; a
    non-empty one returns exactly the orders with that status, so an unknown
    status gives an empty list, not an error. *)
Theorem get_orders_by_status (status : option string) :
  exists result,
    Tools.get_orders status = Tools.get_orders_result result (length result)
    /\ Tools.http_status (Tools.get_orders status) = 200%Z
    /\ (JSText.present status = false -> result = Tools.orders)
    /\ (JSText.present status = true ->
        forall o, In o result
                  <-> In o Tools.orders /\ Some (Order.status o) = status).
Proof.
  unfold Tools.get_orders, JSText.present.
  destruct status as [s|]; cbn [JS.or_empty].
  - destruct (JS.truthy s) eqn:Ts.
    + eexists. split; [reflexivity|]. split; [reflexivity|].
      split; [discriminate|]. intros _ o. split.
      * intros Hin. apply list_elem_of_In, list_elem_of_filter in Hin as [Hs Hin].
        split; [now apply list_elem_of_In|].
        apply Is_true_true in Hs. apply String.eqb_eq in Hs. now rewrite Hs.
      * intros [Hin [= Hs]]. apply list_elem_of_In, list_elem_of_filter. split.
        -- apply Is_true_true, String.eqb_eq, Hs.
        -- now apply list_elem_of_In.
    + exists Tools.orders. split; [reflexivity|]. split; [reflexivity|].
      split; [reflexivity|discriminate].
  - exists Tools.orders. split; [reflexivity|]. split; [reflexivity|].
    split; [reflexivity|discriminate].
Qed.

(** * The Okta system log panel *)

Lemma fetchLogs_settled (f : OktaSystemLog.Fetched) (now : Z) (st : OktaSystemLog.State) :
  OktaSystemLog.loading (OktaSystemLog.fetchLogs f now st) = false
  /\ (OktaSystemLog.error (OktaSystemLog.fetchLogs f now st) = None
      \/ OktaSystemLog.logs (OktaSystemLog.fetchLogs f now st) = []).
Proof.
  unfold OktaSystemLog.fetchLogs, OktaSystemLog.fetchLogs_end.
  destruct f as [err|status [err|data]].
  - split; [reflexivity|now right].
  - destruct (OktaSystemLog.ok status); (split; [reflexivity|now right]).
  - destruct (OktaSystemLog.ok status); cbn [negb].
    + destruct (JSText.present (OktaSystemLog.error_field data));
        (split; [reflexivity|]); [now right|now left].
    + split; [reflexivity|now right].
Qed.

(** X14.  However a [fetchLogs] call turns out, it ends with [loading] off
    and never with both an error and log entries: when an error is set the
    list is emptied, stale entries included.  [lastRefresh] moves to the
    current time exactly when a 2xx response with a readable body arrived
    (even one reporting an error); otherwise it keeps its value and an error
    is set, which for a non-2xx response reads "HTTP error: <status>". *)
Theorem fetchLogs_postcondition
    (f : OktaSystemLog.Fetched) (now : Z) (st : OktaSystemLog.State) :
  OktaSystemLog.loading (OktaSystemLog.fetchLogs f now st) = false
  /\ (OktaSystemLog.error (OktaSystemLog.fetchLogs f now st) = None
      \/ OktaSystemLog.logs (OktaSystemLog.fetchLogs f now st) = [])
  /\ match f with
     | OktaSystemLog.fetch_rejected _ =>
         OktaSystemLog.lastRefresh (OktaSystemLog.fetchLogs f now st)
         = OktaSystemLog.lastRefresh st
         /\ exists message,
              OktaSystemLog.error (OktaSystemLog.fetchLogs f now st) = Some message
     | OktaSystemLog.responded status body =>
         if OktaSystemLog.ok status then
           match body with
           | inr _ =>
               OktaSystemLog.lastRefresh (OktaSystemLog.fetchLogs f now st) = Some now
           | inl _ =>
               OktaSystemLog.lastRefresh (OktaSystemLog.fetchLogs f now st)
               = OktaSystemLog.lastRefresh st
               /\ exists message,
                    OktaSystemLog.error (OktaSystemLog.fetchLogs f now st) = Some message
           end
         else
           OktaSystemLog.lastRefresh (OktaSystemLog.fetchLogs f now st)
           = OktaSystemLog.lastRefresh st
           /\ OktaSystemLog.error (OktaSystemLog.fetchLogs f now st)
              = Some ("HTTP error: " +:+ pretty status)
     end.
Proof.
  destruct (fetchLogs_settled f now st) as [Hl He].
  split; [exact Hl|]. split; [exact He|].
  unfold OktaSystemLog.fetchLogs, OktaSystemLog.fetchLogs_end.
  destruct f as [err|status [err|data]].
  - split; [reflexivity|]. eexists; reflexivity.
  - destruct (OktaSystemLog.ok status); cbn [negb].
    + split; [reflexivity|]. eexists; reflexivity.
    + split; reflexivity.
  - destruct (OktaSystemLog.ok status); cbn [negb].
    + now destruct (JSText.present (OktaSystemLog.error_field data)).
    + split; reflexivity.
Qed.

Lemma rendered_invariant (st : OktaSystemLog.State) :
  OktaSystemLog.rendered st ->
  OktaSystemLog.error st = None
  \/ (OktaSystemLog.loading st = false /\ OktaSystemLog.logs st = []).
Proof.
  intros R. induction R as [|st R IH|st f now R IH].
  - now left.
  - now left.
  - destruct (fetchLogs_settled f now st) as (Hl & [He|Hg]); auto.
Qed.

(** X15.  In every state the component renders (the initial one, the one
    while a fetch is under way, the one a finished fetch leaves, over any
    number of refreshes) exactly one of its four blocks is on screen: the
    error notice, the loading notice, the "no events" notice, or the list of
    log entries. *)
Theorem exactly_one_pane (st : OktaSystemLog.State) :
  OktaSystemLog.rendered st ->
  length (filter (fun b : bool => b) (OktaSystemLog.panes st)) = 1.
Proof.
  intros R. apply rendered_invariant in R.
  unfold OktaSystemLog.panes, OktaSystemLog.shows_error, OktaSystemLog.shows_loading,
    OktaSystemLog.shows_no_logs, OktaSystemLog.shows_logs.
  destruct st as [logs loading error lastRefresh]; simpl in *.
  destruct R as [->|[-> ->]].
  - destruct loading, logs; reflexivity.
  - destruct (JSText.present error); reflexivity.
Qed.

Lemma exactly_one_pane_witness :
  OktaSystemLog.panes
    (OktaSystemLog.fetchLogs (OktaSystemLog.responded 503 (inl OktaSystemLog.another_value))
       1700000000 OktaSystemLog.initial)
  = [true; false; false; false]
  /\ length (filter (fun b : bool => b)
               (OktaSystemLog.panes
                  (OktaSystemLog.fetchLogs
                     (OktaSystemLog.responded 503 (inl OktaSystemLog.another_value))
                     1700000000 OktaSystemLog.initial))) = 1.
Proof.
  split; [vm_compute; reflexivity|].
  apply exactly_one_pane.
  apply OktaSystemLog.rendered_end, OktaSystemLog.rendered_initial.
Defined.

(** * The token exchange card *)

(** X16.  The summary and the rows of the card agree on grants but not on
    denials.  The "Granted" number is the number of rows with the Granted
    badge.  The "Denied" number counts the rows blocked by policy only, so
    the rows with the Denied badge are that number plus the exchanges that
    failed without being denied; no exchange is counted on both sides, and
    the three groups together are all the exchanges.  The "Denied" number
    is hidden exactly when no row is blocked by policy. *)
Theorem card_counts (exchanges : list TokenExchangeCard.TokenExchange) :
  length (TokenExchangeCard.granted exchanges)
  = length (filter (fun e => TokenExchangeCard.granted_badge e) exchanges)
  /\ length (TokenExchangeCard.denied exchanges)
     = length (filter (fun e => TokenExchangeCard.shows_policy_block e) exchanges)
  /\ length (filter (fun e => negb (TokenExchangeCard.granted_badge e)) exchanges)
     = length (TokenExchangeCard.denied exchanges)
       + length (filter (fun e => negb (TokenExchangeCard.success e)
                                  && negb (TokenExchangeCard.access_denied e)) exchanges)
  /\ length (TokenExchangeCard.granted exchanges)
     + length (filter (fun e => negb (TokenExchangeCard.granted_badge e)) exchanges)
     = length exchanges
  /\ (forall e, In e (TokenExchangeCard.granted exchanges) ->
                ~ In e (TokenExchangeCard.denied exchanges))
  /\ fst (TokenExchangeCard.summary exchanges) = length (TokenExchangeCard.granted exchanges)
  /\ (snd (TokenExchangeCard.summary exchanges) = None
      <-> Forall (fun e => TokenExchangeCard.shows_policy_block e = false) exchanges).
Proof.
  assert (S : snd (TokenExchangeCard.summary exchanges) = None
              <-> Forall (fun e => TokenExchangeCard.shows_policy_block e = false) exchanges).
  { unfold TokenExchangeCard.summary, TokenExchangeCard.denied,
      TokenExchangeCard.shows_policy_block. simpl.
    induction exchanges as [|e es IH].
    - split; [constructor|reflexivity].
    - rewrite filter_cons. destruct (TokenExchangeCard.access_denied e) eqn:E; simpl.
      + split; [discriminate|]. intros F. inversion F; congruence.
      + rewrite IH. split; [now constructor|]. intros F. now inversion F. }
  unfold TokenExchangeCard.granted, TokenExchangeCard.denied,
    TokenExchangeCard.granted_badge, TokenExchangeCard.shows_policy_block.
  split; [reflexivity|]. split; [reflexivity|].
  split; [|split; [|split; [|split; [reflexivity|exact S]]]].
  - clear S. induction exchanges as [|e es IH]; [reflexivity|].
    rewrite !filter_cons.
    destruct (TokenExchangeCard.success e), (TokenExchangeCard.access_denied e);
      simpl; rewrite IH; lia.
  - clear S. induction exchanges as [|e es IH]; [reflexivity|].
    rewrite !filter_cons.
    destruct (TokenExchangeCard.success e), (TokenExchangeCard.access_denied e);
      simpl; lia.
  - intros e Hg Hd.
    apply list_elem_of_In, list_elem_of_filter in Hg as [Hg _].
    apply list_elem_of_In, list_elem_of_filter in Hd as [Hd _].
    destruct (TokenExchangeCard.success e), (TokenExchangeCard.access_denied e);
      simpl in *; tauto.
Qed.

(** * The NextAuth callbacks *)

Lemma jwt_later_request (token : Auth.JWT) : Auth.jwt token None None = token.
Proof. reflexivity. Qed.

Lemma later_requests_keep_token (n : nat) (token : Auth.JWT) :
  Auth.later_requests n token = token.
Proof.
  revert token; induction n as [|n IH]; intros token; [reflexivity|].
  cbn [Auth.later_requests]. rewrite jwt_later_request. apply IH.
Qed.

(** X17.  What sign-in stored is what every later session shows.  After the
    [jwt] callback ran once with the account and profile of a sign-in, and
    any number of times without them on later requests, the [session]
    callback yields the account's access and id tokens (or none, where the
    account had none, whatever the token held before) and the profile's
    subject as the user id, and leaves the session's expiry and the user's
    name, email and image as they were. *)
Theorem session_shows_sign_in
    (s : Auth.Session) (token : Auth.JWT) (a : Auth.Account) (pr : Auth.Profile) (n : nat) :
  Auth.session_accessToken
    (Auth.session s (Auth.later_requests n (Auth.jwt token (Some a) (Some pr))))
  = Auth.access_token a
  /\ Auth.session_idToken
       (Auth.session s (Auth.later_requests n (Auth.jwt token (Some a) (Some pr))))
     = Auth.id_token a
  /\ Auth.expires
       (Auth.session s (Auth.later_requests n (Auth.jwt token (Some a) (Some pr))))
     = Auth.expires s
  /\ exists u,
       Auth.session_user
         (Auth.session s (Auth.later_requests n (Auth.jwt token (Some a) (Some pr))))
       = Some u
       /\ Auth.id u = Auth.profile_sub pr
       /\ Auth.name u = (Auth.session_user s ≫= Auth.name)
       /\ Auth.email u = (Auth.session_user s ≫= Auth.email)
       /\ Auth.image u = (Auth.session_user s ≫= Auth.image).
Proof.
  rewrite later_requests_keep_token.
  repeat split. unfold Auth.session.
  destruct (Auth.session_user s) as [u|]; eexists; repeat split.
Qed.

(** * The configuration probe *)

Lemma present_by_length (v : option string) :
  JSText.present v = Nat.ltb 0 (Debug.length_or_0 v).
Proof. destruct v as [[|c s]|]; reflexivity. Qed.

(** X18.  The probe gives secrets away by length and presence only.  Two
    environments that differ at most in the values of [OKTA_CLIENT_SECRET]
    and [NEXTAUTH_SECRET], with client secrets of the same length and the
    NextAuth secret set in both or in neither, get the same report. *)
Theorem probe_hides_secret_values (e1 e2 : gmap string string) :
  (forall k, k <> "OKTA_CLIENT_SECRET" -> k <> "NEXTAUTH_SECRET" -> e1 !! k = e2 !! k) ->
  Debug.length_or_0 (e1 !! "OKTA_CLIENT_SECRET")
  = Debug.length_or_0 (e2 !! "OKTA_CLIENT_SECRET") ->
  JSText.present (e1 !! "NEXTAUTH_SECRET") = JSText.present (e2 !! "NEXTAUTH_SECRET") ->
  Debug.GET e1 = Debug.GET e2.
Proof.
  intros Hk Hlen Hna. unfold Debug.GET.
  rewrite (present_by_length (e1 !! "OKTA_CLIENT_SECRET")), Hlen,
    <- (present_by_length (e2 !! "OKTA_CLIENT_SECRET")), Hna.
  rewrite !(Hk "NEXT_PUBLIC_OKTA_CLIENT_ID"), !(Hk "NEXT_PUBLIC_OKTA_ISSUER"),
    !(Hk "NEXT_PUBLIC_OKTA_DOMAIN"), !(Hk "NEXTAUTH_URL"), !(Hk "NEXT_PUBLIC_API_URL")
    by discriminate.
  reflexivity.
Qed.

Lemma probe_hides_secret_values_witness :
  Debug.GET (<["OKTA_CLIENT_SECRET" := "s3cret-A"]> (<["NEXTAUTH_SECRET" := "one"]> Stub.configured))
  = Debug.GET (<["OKTA_CLIENT_SECRET" := "S3CRET-b"]> (<["NEXTAUTH_SECRET" := "another"]> Stub.configured)).
Proof.
  apply probe_hides_secret_values.
  - intros k H1 H2. now rewrite !lookup_insert_ne.
  - vm_compute; reflexivity.
  - vm_compute; reflexivity.
Defined.

(** X19.  In every report each flag tells the truth about its value: a "has"
    flag is on exactly when the reported length is positive, and a value
    field holds the environment's value when its flag is on and the
    "NOT SET" text when it is off. *)
Theorem probe_flags_match_values (e : gmap string string) :
  Debug.hasClientId (Debug.GET e) = Nat.ltb 0 (Debug.clientIdLength (Debug.GET e))
  /\ Debug.hasClientSecret (Debug.GET e) = Nat.ltb 0 (Debug.clientSecretLength (Debug.GET e))
  /\ (if Debug.hasIssuer (Debug.GET e)
      then e !! "NEXT_PUBLIC_OKTA_ISSUER" = Some (Debug.issuer (Debug.GET e))
      else Debug.issuer (Debug.GET e) = "NOT SET")
  /\ (if Debug.hasDomain (Debug.GET e)
      then e !! "NEXT_PUBLIC_OKTA_DOMAIN" = Some (Debug.domain (Debug.GET e))
      else Debug.domain (Debug.GET e) = "NOT SET")
  /\ (if Debug.hasNextAuthUrl (Debug.GET e)
      then e !! "NEXTAUTH_URL" = Some (Debug.nextAuthUrl (Debug.GET e))
      else Debug.nextAuthUrl (Debug.GET e) = "NOT SET")
  /\ (if Debug.hasApiUrl (Debug.GET e)
      then e !! "NEXT_PUBLIC_API_URL" = Some (Debug.apiUrl (Debug.GET e))
      else Debug.apiUrl (Debug.GET e) = "NOT SET (will use localhost:8000)").
Proof.
  assert (V : forall v fallback,
             if JSText.present v then v = Some (Debug.or_else v fallback)
             else Debug.or_else v fallback = fallback).
  { intros v fallback. unfold Debug.or_else.
    destruct (JSText.present v) eqn:E; [|reflexivity].
    destruct v; [reflexivity|discriminate]. }
  unfold Debug.GET; simpl.
  split; [apply present_by_length|]. split; [apply present_by_length|].
  repeat split; apply V.
Qed.
